(** * Active-session and identity-linking core of the Kinvey JavaScript SDK

    A shallow embedding of the [User] class (login, logout, signup, connect,
    disconnect, update, me, isActive) and of [UserStore.save], together with
    the properties of the session lifecycle that they satisfy.

    Conventions of the embedding.
    - A JavaScript object is a finite map of its own properties
      ([gmap string value]); inherited properties are not modelled.  Reading
      an absent property yields [VUndefined].
      Objects are plain records of data: [String] of an array or of an
      object with a [toString] of its own is outside the model.
    - Numbers are the integers a double holds (there is no NaN in the
      model).
    - A string is held as the bytes of its UTF-8 form; where the code
      counts or indexes the characters of a string, these are its UTF-16
      code units ([code_units]).
    - A promise chain is a computation in a state-and-error monad: the state
      is the session's [data], the client's stores and the log of requests
      handed to the transport; [.then] is sequencing, [.catch] is a handler.
      A synchronous [throw] and a rejected promise are both [Err].
    - The source calls [.then0] on promises, a method no promise has: the
      call throws a [TypeError] (see [then0]).
    - The transport ([NetworkRequest#execute]) is a parameter: any function
      from the requests sent so far and the current request to a reply. *)

From Stdlib Require Import ZArith String Ascii List Bool Lia.
From stdpp Require Import base option gmap strings list fin_maps pretty.

Local Open Scope string_scope.
Local Open Scope list_scope.

(** ** JavaScript values *)

#[warnings="-register-all"]
Inductive value : Type :=
  | VUndefined
  | VNull
  | VBool (b : bool)
  | VNum (n : Z)
  | VStr (s : string)
  | VObj (o : gmap string value).

Abbreviation obj := (gmap string value).

(** [o[k]] for an object [o]. *)
Definition get (o : obj) (k : string) : value :=
  match o !! k with
  | Some v => v
  | None => VUndefined
  end.

(** ToBoolean. *)
Definition truthy (v : value) : bool :=
  match v with
  | VUndefined | VNull => false
  | VBool b => b
  | VNum n => negb (n =? 0)%Z
  | VStr s => negb (String.eqb s "")
  | VObj _ => true
  end.

(** [a === b].  Two objects are compared by reference; every object the code
    compares is read from a separately stored record, so two objects are
    never the same reference. *)
Definition strict_eq (a b : value) : bool :=
  match a, b with
  | VUndefined, VUndefined => true
  | VNull, VNull => true
  | VBool x, VBool y => Bool.eqb x y
  | VNum x, VNum y => (x =? y)%Z
  | VStr x, VStr y => String.eqb x y
  | _, _ => false
  end.

(** *** Number::toString

    A number is printed with the fewest significant digits that read back
    as the same double; up to twenty-one digits before the point they are
    padded with zeros, beyond that the exponent is written out. *)

(** Whether the decimal [c] is read back as the double [x], of at least
    [2 ^ 53]: it lies within half a gap of [x], the ends being included when
    the mantissa of [x] is even. *)
Definition reads_back (x c : Z) : bool :=
  let e := (Z.log2 x - 52)%Z in
  let m := (x / 2 ^ e)%Z in
  let above := (2 ^ e)%Z in
  let below := (if m =? 2 ^ 52 then 2 ^ (e - 1) else 2 ^ e)%Z in
  if Z.even m
  then (2 * (x - c) <=? below)%Z && (2 * (c - x) <=? above)%Z
  else (2 * (x - c) <? below)%Z && (2 * (c - x) <? above)%Z.

Definition count_digits (x : Z) : Z := Z.of_nat (String.length (pretty x)).

(** The decimal with [k] significant digits that reads back as [x], if
    there is one: of the two next to [x] the closer one, and of two equally
    close ones the one whose last digit is even. *)
Definition with_digits (x k : Z) : option Z :=
  let scale := (10 ^ (count_digits x - k))%Z in
  let lo := (x / scale * scale)%Z in
  let hi := (lo + scale)%Z in
  match reads_back x lo, reads_back x hi with
  | true, true =>
      Some (if (x - lo <? hi - x)%Z then lo
            else if (hi - x <? x - lo)%Z then hi
            else if Z.even (x / scale) then lo else hi)
  | true, false => Some lo
  | false, true => Some hi
  | false, false => None
  end.

(** Seventeen digits are enough for every double. *)
Definition shortest_decimal (x : Z) : Z :=
  match list_find (fun o : option Z => is_Some o)
                  (map (fun k => with_digits x (Z.of_nat k)) (seq 1 17)) with
  | Some (_, Some c) => c
  | _ => x
  end.

(** Drops the zeros at the end of a string of digits. *)
Fixpoint drop_zeros (s : string) : string :=
  match s with
  | String c s' =>
      match drop_zeros s' with
      | EmptyString => if Ascii.eqb c "0" then EmptyString
                       else String c EmptyString
      | t => String c t
      end
  | EmptyString => EmptyString
  end.

(** The form with an exponent, for a decimal [c] of more than twenty-one
    digits. *)
Definition exponential (c : Z) : string :=
  let e := pretty (count_digits c - 1)%Z in
  match drop_zeros (pretty c) with
  | String d EmptyString => String d EmptyString +:+ "e+" +:+ e
  | String d rest => String d EmptyString +:+ "." +:+ rest +:+ "e+" +:+ e
  | EmptyString => "0"
  end.

Definition number_to_string (n : Z) : string :=
  if (Z.abs n <? 2 ^ 53)%Z then pretty n
  else
    let c := shortest_decimal (Z.abs n) in
    (if (n <? 0)%Z then "-" else "")
    +:+ (if (c <? 10 ^ 21)%Z then pretty c else exponential c).

(** [String(v)]. *)
Definition to_String (v : value) : string :=
  match v with
  | VUndefined => "undefined"
  | VNull => "null"
  | VBool true => "true"
  | VBool false => "false"
  | VNum n => number_to_string n
  | VStr s => s
  | VObj _ => "[object Object]"
  end.

(** *** String.prototype.trim *)

Definition bytes (l : list nat) : string :=
  string_of_list_ascii (map ascii_of_nat l).

(** The code points [trim] strips, WhiteSpace and LineTerminator of the
    language, in UTF-8: U+0009 to U+000D, U+0020, U+00A0, U+1680, U+2000 to
    U+200A, U+2028, U+2029, U+202F, U+205F, U+3000 and U+FEFF. *)
Definition white_space : list string :=
  map bytes
    [ [9]; [10]; [11]; [12]; [13]; [32];
      [194; 160];
      [225; 154; 128];
      [226; 128; 128]; [226; 128; 129]; [226; 128; 130]; [226; 128; 131];
      [226; 128; 132]; [226; 128; 133]; [226; 128; 134]; [226; 128; 135];
      [226; 128; 136]; [226; 128; 137]; [226; 128; 138];
      [226; 128; 168]; [226; 128; 169];
      [226; 128; 175];
      [226; 129; 159];
      [227; 128; 128];
      [239; 187; 191] ].

(** [s] without its prefix [p]. *)
Fixpoint drop_prefix (p s : string) : option string :=
  match p, s with
  | EmptyString, _ => Some s
  | String a p', String b s' =>
      if Ascii.eqb a b then drop_prefix p' s' else None
  | _, _ => None
  end.

(** [s] without the first of the [patterns] it starts with. *)
Definition drop_one (patterns : list string) (s : string) : option string :=
  match list_find (fun o : option string => is_Some o)
                  (map (fun p => drop_prefix p s) patterns) with
  | Some (_, r) => r
  | None => None
  end.

(** [s] without the [patterns] it starts with, taken off one after the
    other; [n] bounds their number. *)
Fixpoint drop_all (patterns : list string) (n : nat) (s : string) : string :=
  match n with
  | O => s
  | S n' =>
      match drop_one patterns s with
      | Some s' => drop_all patterns n' s'
      | None => s
      end
  end.

Definition reverse (s : string) : string :=
  string_of_list_ascii (rev (list_ascii_of_string s)).

Definition trim_start (s : string) : string :=
  drop_all white_space (String.length s) s.

Definition trim_end (s : string) : string :=
  reverse (drop_all (map reverse white_space) (String.length s) (reverse s)).

Definition trim (s : string) : string := trim_end (trim_start s).

(** The strings of a list, one after the other. *)
Definition join (l : list string) : string := fold_right String.append "" l.

(** *** The characters of a string

    The indices and the [length] of a string count UTF-16 code units.  A
    code point of one to three bytes is one unit; a code point of four
    bytes is two units, its surrogates, each written here as the three
    bytes of its number. *)

Definition three_bytes (u : N) : list nat :=
  map N.to_nat
      [224 + u / 4096; 128 + (u / 64) mod 64; 128 + u mod 64]%N.

Definition surrogates (b0 b1 b2 b3 : nat) : list (list nat) :=
  let v := ((N.of_nat b0 mod 8) * 262144 + (N.of_nat b1 mod 64) * 4096
            + (N.of_nat b2 mod 64) * 64 + N.of_nat b3 mod 64 - 65536)%N in
  [three_bytes (55296 + v / 1024)%N; three_bytes (56320 + v mod 1024)%N].

Fixpoint units (l : list nat) : list (list nat) :=
  match l with
  | [] => []
  | b0 :: l1 =>
      if (b0 <? 192)%nat then [b0] :: units l1
      else
        match l1 with
        | [] => [[b0]]
        | b1 :: l2 =>
            if (b0 <? 224)%nat then [b0; b1] :: units l2
            else
              match l2 with
              | [] => [[b0; b1]]
              | b2 :: l3 =>
                  if (b0 <? 240)%nat then [b0; b1; b2] :: units l3
                  else
                    match l3 with
                    | [] => [[b0; b1; b2]]
                    | b3 :: l4 => surrogates b0 b1 b2 b3 ++ units l4
                    end
              end
        end
  end.

Definition code_units (s : string) : list string :=
  map bytes (units (map nat_of_ascii (list_ascii_of_string s))).

(** ** Errors and results *)

Inductive error : Type :=
  | ActiveUserError (message : string)
  | KinveyError (message : string)
  | NotFoundError
  | TimeoutError
  | ServerError (name : string)
  | TypeError.

(** [err instanceof NotFoundError]. *)
Definition is_NotFoundError (e : error) : bool :=
  match e with
  | NotFoundError => true
  | _ => false
  end.

Inductive res (A : Type) : Type :=
  | Ok (a : A)
  | Err (e : error)
  | OutOfFuel.
Arguments Ok {A} a.
Arguments Err {A} e.
Arguments OutOfFuel {A}.

(** [v[k]] on a value that need not be an object: reading a property of
    [undefined] or [null] throws; a primitive has no own properties in the
    model. *)
Definition get_prop (v : value) (k : string) : res value :=
  match v with
  | VUndefined | VNull => Err TypeError
  | VObj o => Ok (get o k)
  | _ => Ok VUndefined
  end.

(** [v[k] = x] in strict code: assigning to a property of a primitive
    throws. *)
Definition set_prop (v : value) (k : string) (x : value) : res value :=
  match v with
  | VObj o => Ok (VObj (<[k := x]> o))
  | _ => Err TypeError
  end.

(** [delete v[k]]. *)
Definition delete_prop (v : value) (k : string) : res value :=
  match v with
  | VUndefined | VNull => Err TypeError
  | VObj o => Ok (VObj (delete k o))
  | _ => Ok v
  end.

(** [a || b]. *)
Definition js_or (a b : value) : value := if truthy a then a else b.

(** ** Configuration constants (the defaults of the environment lookups) *)

Definition usersNamespace : string := "user".
Definition idAttribute : string := "_id".
Definition kmdAttribute : string := "_kmd".
Definition socialIdentityAttribute : string := "_socialIdentity".

(** ** Requests, client and state *)

Inductive HttpMethod : Type := GET | POST | PUT.
Inductive AuthType : Type := App | Session | Default.

(** The fields handed to [new NetworkRequest({...})]; [data] is absent for
    requests without a body. *)
Record Request : Type := mkRequest {
  method : HttpMethod;
  authType : AuthType;
  pathname : string;
  data : option obj;
  properties : value;
  timeout : value
}.

Inductive reply : Type :=
  | Response (data : obj)
  | Failure (e : error).

(** The transport answers a request knowing the requests sent before it. *)
Definition Transport : Type := list Request -> Request -> reply.

(** Modelled from the spec: the [Client] class (./client) is not among the
    sources.  Per the specification of the session store, the client holds at
    most one active-session record, whose setter overwrites it (null clears
    it) and whose getter re-reads the stored form, and one
    active-social-identity pointer. *)
Record Client : Type := mkClient {
  appKey : string;
  activeUserData : option obj;
  activeSocialIdentity : value
}.

(** Methods entered, recorded for counting calls. *)
Inductive call : Type :=
  | CLogin | CLogout | CSignup | CUpdate | CMe | CConnect | CDisconnect.

Record State : Type := mkState {
  this_data : obj;          (* this.data *)
  client : Client;          (* this.client *)
  sent : list Request;      (* requests handed to the transport, oldest first *)
  calls : list call         (* methods entered, oldest first *)
}.

(** What a method returns or its promise is fulfilled with: [null], the
    session itself, or a new [User] wrapping the given data. *)
Inductive ret : Type :=
  | RetNull
  | RetThis
  | RetUser (data : obj).

(** What [logout] hands back: the bare value [null], or a promise. *)
Inductive completion : Type :=
  | Immediate (v : ret)
  | Promise (r : res ret).

(** ** The monad of promise chains *)

Definition M (A : Type) : Type := State -> res A * State.

Definition resolve {A} (a : A) : M A := fun s => (Ok a, s).
Definition throw {A} (e : error) : M A := fun s => (Err e, s).
Definition out_of_fuel {A} : M A := fun s => (OutOfFuel, s).

(** [m.then(k)]: [k] runs when [m] is fulfilled; a rejection skips it. *)
Definition then_ {A B} (m : M A) (k : A -> M B) : M B :=
  fun s =>
    match m s with
    | (Ok a, s') => k a s'
    | (Err e, s') => (Err e, s')
    | (OutOfFuel, s') => (OutOfFuel, s')
    end.

(** [m.catch(h)]: [h] runs when [m] is rejected, in the state [m] left. *)
Definition catch {A} (m : M A) (h : error -> M A) : M A :=
  fun s =>
    match m s with
    | (Err e, s') => h e s'
    | r => r
    end.

(** [m.then0(k)].  A promise has [then], [catch] and [finally], and no
    [then0]; nothing in the sources or in the specification defines one
    (the module ./utils/promise that [Promise] is imported from is not
    among the sources).  The receiver [m] is evaluated, [m.then0] is
    [undefined], and calling it throws a [TypeError]: [k] never runs.  The
    receivers in the sources are [Promise.resolve()], which is fulfilled,
    and [this.signup(...)], which throws in the same way before it
    returns. *)
Definition then0 {A B} (m : M A) (k : A -> M B) : M B :=
  then_ m (fun _ => throw TypeError).

Definition lift {A} (r : res A) : M A := fun s => (r, s).

Notation "x <- m ;; k" := (then_ m (fun x => k))
  (at level 100, m at next level, right associativity).
Notation "m ;; k" := (then_ m (fun _ => k))
  (at level 100, right associativity).

(** State updates. *)
Definition with_data (d : obj) (s : State) : State :=
  mkState d (client s) (sent s) (calls s).

Definition with_active (a : option obj) (s : State) : State :=
  mkState (this_data s)
          (mkClient (appKey (client s)) a (activeSocialIdentity (client s)))
          (sent s) (calls s).

Definition with_pointer (x : value) (s : State) : State :=
  mkState (this_data s)
          (mkClient (appKey (client s)) (activeUserData (client s)) x)
          (sent s) (calls s).

Definition entered (c : call) (s : State) : State :=
  mkState (this_data s) (client s) (sent s) (calls s ++ [c]).

Definition sending (r : Request) (s : State) : State :=
  mkState (this_data s) (client s) (sent s ++ [r]) (calls s).

Definition get_this_data : M obj := fun s => (Ok (this_data s), s).

Definition set_this_data (d : obj) : M unit :=
  fun s => (Ok tt, with_data d s).

Definition enter (c : call) : M unit := fun s => (Ok tt, entered c s).

(** [client.getActiveUserData()] and [client.setActiveUserData(data)]. *)
Definition getActiveUserData : M (option obj) :=
  fun s => (Ok (activeUserData (client s)), s).

Definition setActiveUserData (d : option obj) : M unit :=
  fun s => (Ok tt, with_active d s).

(** [client.getActiveSocialIdentity()] and
    [client.setActiveSocialIdentity(x)]. *)
Definition getActiveSocialIdentity : M value :=
  fun s => (Ok (activeSocialIdentity (client s)), s).

Definition setActiveSocialIdentity (x : value) : M unit :=
  fun s => (Ok tt, with_pointer x s).

Definition get_appKey : M string := fun s => (Ok (appKey (client s)), s).

(** [`/${usersNamespace}/${this.client.appKey}`]. *)
Definition _pathname (key : string) : string :=
  "/" +:+ usersNamespace +:+ "/" +:+ key.

(** ** The requests built by the methods *)

(** [login]: lines 327-338. *)
Definition login_request (key : string) (usernameOrData options : obj)
    : Request :=
  {| method := POST;
     authType := App;
     pathname := _pathname key +:+ "/login";
     data := Some usernameOrData;
     properties := get options "properties";
     timeout := get options "timeout" |}.

(** [logout]: lines 408-418. *)
Definition logout_request (key : string) (options : obj) : Request :=
  {| method := POST;
     authType := Session;
     pathname := "/" +:+ usersNamespace +:+ "/" +:+ key +:+ "/_logout";
     data := None;
     properties := get options "properties";
     timeout := get options "timeout" |}.

(** [signup]: lines 706-717. *)
Definition signup_request (key : string) (data options : obj) : Request :=
  {| method := POST;
     authType := App;
     pathname := "/" +:+ usersNamespace +:+ "/" +:+ key;
     data := Some data;
     properties := get options "properties";
     timeout := get options "timeout" |}.

(** [me]: lines 752-762. *)
Definition me_request (key : string) (options : obj) : Request :=
  {| method := GET;
     authType := Session;
     pathname := "/" +:+ usersNamespace +:+ "/" +:+ key +:+ "/_me";
     data := None;
     properties := get options "properties";
     timeout := get options "timeout" |}.

(** Modelled from the spec: [NetworkStore.save] (./networkstore), the
    superclass method of [UserStore.save], is not among the sources.  Per
    the specification it persists the record through the transport and
    yields the stored record; it is taken to send one PUT of the record to
    the user's path. *)
Definition update_request (key : string) (user options : obj) : Request :=
  {| method := PUT;
     authType := Default;
     pathname := _pathname key +:+ "/" +:+ to_String (get user idAttribute);
     data := Some user;
     properties := get options "properties";
     timeout := get options "timeout" |}.

(** ** The User class *)

Section User.

Variable T : Transport.

(** [request.execute()]: the request is logged and the transport decides. *)
Definition execute (r : Request) : M obj :=
  fun s =>
    match T (sent s) r with
    | Response d => (Ok d, sending r s)
    | Failure e => (Err e, sending r s)
    end.

(** [User.getActiveUser(client)]: the data of the new [User], or [None] for
    [null]. *)
Definition getActiveUser : M (option obj) := getActiveUserData.

(** [User.setActiveUser(user, client)]; [user] is already passed through
    [result(user, 'toJSON', user)]. *)
Definition setActiveUser (user : option obj) : M ret :=
  setActiveUserData user ;;
  a <- getActiveUser ;;
  resolve (match a with Some d => RetUser d | None => RetNull end).

Definition setAsActiveUser : M ret :=
  d <- get_this_data ;;
  setActiveUser (Some d).

Definition isActive : M bool :=
  activeUser <- getActiveUser ;;
  d <- get_this_data ;;
  match activeUser with
  | Some a => resolve (strict_eq (get a idAttribute) (get d idAttribute))
  | None => resolve false
  end.

(** lodash [isObject] decides whether [usernameOrData] is used as it is. *)
Definition credentials_object (usernameOrData password : value) : obj :=
  match usernameOrData with
  | VObj o => o
  | _ => <["password" := password]> (<["username" := usernameOrData]> ∅)
  end.

(** Lines 299-307 of the source: trimming, skipped when the payload carries
    [_socialIdentity]. *)
Definition trim_credentials (u : obj) : obj :=
  if negb (truthy (get u "_socialIdentity")) then
    let u1 :=
      if truthy (get u "username")
      then <["username" := VStr (trim (to_String (get u "username")))]> u
      else u in
    if truthy (get u1 "password")
    then <["password" := VStr (trim (to_String (get u1 "password")))]> u1
    else u1
  else u.

(** The condition of the credentials guard (lines 320-322). *)
Definition credentials_missing (u : obj) : bool :=
  (negb (truthy (get u "username")) || strict_eq (get u "username") (VStr "")
   || negb (truthy (get u "password")) || strict_eq (get u "password") (VStr ""))
  && negb (truthy (get u socialIdentityAttribute)).

Definition already_active_message : string :=
  "This user is already the active user.".
Definition active_exists_message : string :=
  "An active user already exists. Please logout the active user before you login.".
Definition credentials_message : string :=
  "Username and/or password missing. Please provide both a username and password to login.".

Definition login (usernameOrData password : value) (options : obj) : M ret :=
  enter CLogin ;;
  let usernameOrData :=
    trim_credentials (credentials_object usernameOrData password) in
  isActiveUser <- isActive ;;
  if isActiveUser : bool then throw (ActiveUserError already_active_message)
  else
    activeUser <- getActiveUser ;;
    match activeUser with
    | Some _ => throw (ActiveUserError active_exists_message)
    | None =>
        if credentials_missing usernameOrData
        then throw (KinveyError credentials_message)
        else
          key <- get_appKey ;;
          response <- execute (login_request key usernameOrData options) ;;
          set_this_data response ;;
          setAsActiveUser
    end.

Definition logout (options : obj) : State -> completion * State :=
  fun s0 =>
    match (enter CLogout ;; isActive) s0 with
    | (Ok false, s) => (Immediate RetNull, s)
    | (Ok true, s) =>
        let promise :=
          key <- get_appKey ;;
          catch (execute (logout_request key options) ;; resolve tt)
                (fun _ => resolve tt) ;;
          isActive <- isActive ;;
          (if isActive : bool then setActiveUser None ;; resolve tt
           else resolve tt) ;;
          resolve RetThis in
        let (r, s') := promise s in (Promise r, s')
    | (Err e, s) => (Promise (Err e), s)
    | (OutOfFuel, s) => (Promise OutOfFuel, s)
    end.

(** [assign({ state: true }, options)]: the properties of [options] win. *)
Definition signup_options (options : obj) : obj :=
  options ∪ {["state" := VBool true]}.

Definition signup (data : obj) (options : obj) : M ret :=
  enter CSignup ;;
  let options := signup_options options in
  then0 (then0 (resolve tt) (fun _ =>
    if strict_eq (get options "state") (VBool true) then
      activeUser <- getActiveUser ;;
      match activeUser with
      | Some _ => throw (ActiveUserError active_exists_message)
      | None => resolve tt
      end
    else resolve tt)) (fun _ =>
  key <- get_appKey ;;
  response <- execute (signup_request key data options) ;;
  set_this_data response ;;
  if strict_eq (get options "state") (VBool true) then setAsActiveUser
  else resolve RetThis).

(** *** UserStore.save *)

(** One turn of the [for ... in] loop of [UserStore.save] (lines 38-44), for
    the own property [identity] of [socialIdentity]. *)
Definition strip_step (_identity : value) (socialIdentity : obj)
    (identity : string) : obj :=
  if truthy (get socialIdentity identity)
     && negb (strict_eq _identity (VStr identity))
  then delete identity socialIdentity
  else socialIdentity.

(** The loop over the own properties of the object. *)
Definition strip_loop (_identity : value) (socialIdentity : obj) : obj :=
  fold_left (strip_step _identity) (map_to_list socialIdentity).*1
            socialIdentity.

(** The loop on whatever [user[socialIdentityAttribute]] holds.  A falsy
    value is skipped; a number or boolean has nothing to enumerate; the
    own properties of a string are its indices, each truthy and not
    deletable, so the [delete] throws at the first index that is not
    [options._identity]. *)
Definition strip_value (_identity : value) (socialIdentity : value)
    : res value :=
  match socialIdentity with
  | VObj o => Ok (VObj (strip_loop _identity o))
  | VStr s =>
      if forallb (fun i => strict_eq _identity (VStr (pretty i)))
                 (seq 0 (length (code_units s)))
      then Ok socialIdentity else Err TypeError
  | _ => Ok socialIdentity
  end.

(** [super.save(user, options)]. *)
Definition NetworkStore_save (user options : obj) : M obj :=
  key <- get_appKey ;;
  execute (update_request key user options).

(** Lines 35-46: [user] after the scoping to [options._identity]. *)
Definition scoped_user (user options : obj) : res obj :=
  if truthy (get options "_identity") then
    let socialIdentity := get user socialIdentityAttribute in
    if truthy socialIdentity then
      match strip_value (get options "_identity") socialIdentity with
      | Ok stripped => Ok (<[socialIdentityAttribute := stripped]> user)
      | Err e => Err e
      | OutOfFuel => OutOfFuel
      end
    else Ok user
  else Ok user.

Definition missing_id_message : string := "User must have an _id.".

(** [UserStore.save(user, options)].  [user] is an object, so the first two
    guards ([!user], [isArray(user)]) do not fire.  The loop deletes from
    the object stored under [user[socialIdentityAttribute]]; [update] passes
    the very object held in [this.data], so the deletion shows there too. *)
Definition UserStore_save (user options : obj) : M obj :=
  then_ (resolve tt) (fun _ =>
    if negb (truthy (get user idAttribute))
    then throw (KinveyError missing_id_message)
    else
      user' <- lift (scoped_user user options) ;;
      set_this_data user' ;;
      NetworkStore_save user' options).

(** [update(data, options)]; both callers pass [this.data]. *)
Definition update (data options : obj) : M ret :=
  enter CUpdate ;;
  data <- UserStore_save data options ;;
  set_this_data data ;;
  active <- isActive ;;
  if active : bool then setAsActiveUser else resolve RetThis.

(** *** Metadata *)

(** Modelled from the spec: the [Metadata] class (./metadata) is not among
    the sources.  Per the data model, the metadata of a record is the
    structured record under its [_kmd] attribute, which contains
    [authtoken]. *)
Definition kmd_of (d : obj) : obj :=
  match get d kmdAttribute with
  | VObj k => k
  | _ => ∅
  end.

(** [user.authtoken]. *)
Definition authtoken (d : obj) : value := get (kmd_of d) "authtoken".

(** [user.authtoken = t]. *)
Definition set_authtoken (t : value) (d : obj) : obj :=
  <[kmdAttribute := VObj (<["authtoken" := t]> (kmd_of d))]> d.

Definition me (options : obj) : M ret :=
  enter CMe ;;
  key <- get_appKey ;;
  response <- execute (me_request key options) ;;
  set_this_data response ;;
  d <- get_this_data ;;
  (if negb (truthy (authtoken d)) then
     activeUser <- getActiveUser ;;
     match activeUser with
     | Some a => set_this_data (set_authtoken (authtoken a) d)
     | None => resolve tt
     end
   else resolve tt) ;;
  setAsActiveUser.

(** *** connect and disconnect *)

(** The object literal stored by [connect] as the active social identity. *)
Definition pointer_record (identity : string) (token : value) (options : obj)
    : obj :=
  <["client" := get options "client"]>
    (<["redirectUri" := get options "redirectUri"]>
    (<["token" := token]>
    (<["identity" := VStr identity]> ∅))).

Definition social_pointer (identity : string) (token : value) (options : obj)
    : value :=
  VObj (pointer_record identity token options).

(** Lines 597-601: the token is merged into [this.data] before anything is
    sent. *)
Definition connect_merge (identity : string) (token : value) : M obj :=
  data <- get_this_data ;;
  socialIdentity <-
    lift (set_prop (js_or (get data socialIdentityAttribute) (VObj ∅))
                   identity token) ;;
  let data := <[socialIdentityAttribute := socialIdentity]> data in
  set_this_data data ;;
  resolve data.

(** Lines 620-628: the last [.then] of [connect]. *)
Definition connect_finish (identity : string) (options : obj) : M ret :=
  d <- get_this_data ;;
  token <- lift (get_prop (get d socialIdentityAttribute) identity) ;;
  setActiveSocialIdentity (social_pointer identity token options) ;;
  resolve RetThis.

(** [connect(identity, token, options)].  The source calls [connect] again
    inside the handler it gives to [.then0]; [fuel] bounds the nesting of
    calls so that the definition is structural, and [OutOfFuel] reports
    that the bound was reached.  [options._identity = identity] writes into
    the caller's [options] object, which the handler of [.catch] and the
    last [.then] read afterwards.  The [data] captured by the handler is
    the object held in [this.data], read there. *)
Fixpoint connect (fuel : nat) (identity : string) (token : value)
    (options : obj) : M ret :=
  match fuel with
  | O => out_of_fuel
  | S fuel' =>
      enter CConnect ;;
      data <- connect_merge identity token ;;
      isActive <- isActive ;;
      let options :=
        if isActive : bool
        then <["_identity" := VStr identity]> options else options in
      catch
        (then_ (resolve tt) (fun _ =>
           if isActive : bool then update data options
           else login (VObj data) VNull options))
        (fun err =>
           if is_NotFoundError err then
             data <- get_this_data ;;
             then0 (signup data options)
                   (fun _ => connect fuel' identity token options)
           else throw err) ;;
      connect_finish identity options
  end.

(** Lines 634-638: the entry is deleted from [this.data] before anything
    is sent. *)
Definition disconnect_remove (identity : string) : M obj :=
  data <- get_this_data ;;
  socialIdentity <-
    lift (delete_prop (js_or (get data socialIdentityAttribute) (VObj ∅))
                      identity) ;;
  let data := <[socialIdentityAttribute := socialIdentity]> data in
  set_this_data data ;;
  resolve data.

(** Lines 646-654: the last [.then] of [disconnect]. *)
Definition disconnect_finish (identity : string) : M ret :=
  activeSocialIdentity <- getActiveSocialIdentity ;;
  pointed <- lift (get_prop activeSocialIdentity "identity") ;;
  (if strict_eq pointed (VStr identity)
   then setActiveSocialIdentity VNull else resolve tt) ;;
  resolve RetThis.

Definition disconnect (identity : string) (options : obj) : M ret :=
  enter CDisconnect ;;
  data <- disconnect_remove identity ;;
  then0 (resolve tt) (fun _ =>
    d <- get_this_data ;;
    if negb (truthy (get d idAttribute)) then resolve RetThis
    else update data options) ;;
  disconnect_finish identity.

End User.

(** ** Derived notions used in the statements *)

(** Whether the session is the active one, as [isActive] computes it. *)
Definition is_active (s : State) : bool :=
  match activeUserData (client s) with
  | Some a => strict_eq (get a idAttribute) (get (this_data s) idAttribute)
  | None => false
  end.

(** A credential is supplied when it is truthy and its string form is not
    empty once trimmed. *)
Definition supplied (v : value) : bool :=
  truthy v && negb (String.eqb (trim (to_String v)) "").

(** The credentials have no username-and-password pair, non-empty after
    trimming, and their [_socialIdentity] is falsy. *)
Definition lacks_credentials (c : obj) : bool :=
  negb (supplied (get c "username") && supplied (get c "password"))
  && negb (truthy (get c socialIdentityAttribute)).

(** The payload with username and password trimmed, unless it carries a
    social identity. *)
Definition transmitted (c : obj) : obj :=
  if truthy (get c socialIdentityAttribute) then c
  else <["password" := VStr (trim (to_String (get c "password")))]>
         (<["username" := VStr (trim (to_String (get c "username")))]> c).

(** The log of [s'] is the log of [s] with further requests appended. *)
Definition extends (s s' : State) : Prop :=
  exists new, sent s' = sent s ++ new.

(** What [connect] does once its first attempt ([update] or [login]) has
    settled: the last [.then] when it was fulfilled; when it was rejected,
    the handler of [.catch], which hands the error on unless it is a
    [NotFoundError], for which it enters [signup], where [.then0] throws. *)
Definition after_attempt (identity : string) (options : obj)
    (attempt : res ret * State) : res ret * State :=
  match attempt with
  | (Ok _, s3) => connect_finish identity options s3
  | (Err e, s3) =>
      if is_NotFoundError e then (Err TypeError, entered CSignup s3)
      else (Err e, s3)
  | (OutOfFuel, s3) => (OutOfFuel, s3)
  end.

(** The requests of a log that are signups: a POST to the users path. *)
Definition is_signup_request (key : string) (r : Request) : bool :=
  match method r with
  | POST => String.eqb (pathname r) ("/" +:+ usersNamespace +:+ "/" +:+ key)
  | _ => false
  end.

Definition count_signups (key : string) (l : list Request) : nat :=
  length (List.filter (is_signup_request key) l).

(** The entries of [connect] among the methods entered. *)
Definition is_connect (c : call) : bool :=
  match c with
  | CConnect => true
  | _ => false
  end.

Definition count_connects (l : list call) : nat :=
  length (List.filter is_connect l).

(** The data [me] leaves in the session: the server record, with the
    active session's token when the record has none. *)
Definition refreshed (active : option obj) (d : obj) : obj :=
  if negb (truthy (authtoken d)) then
    match active with
    | Some a => set_authtoken (authtoken a) d
    | None => d
    end
  else d.

(** ** Sample records, states and transports *)

Definition token_T1 : value := VStr "T1".

(** A user record as the backend returns it. *)
Definition record_u1 : obj :=
  <[kmdAttribute := VObj (<["authtoken" := token_T1]> ∅)]>
    (<[idAttribute := VStr "u1"]> ∅).

(** Another object with the same id. *)
Definition record_u1_copy : obj := <[idAttribute := VStr "u1"]> ∅.

Definition fresh_client : Client := mkClient "kid" None VNull.

(** A client whose stored active record has no id. *)
Definition client_without_id : Client := mkClient "kid" (Some ∅) VNull.

(** A new [User()] on a client without active session. *)
Definition anonymous : State := mkState ∅ fresh_client [] [].

(** The session of [record_u1], active on its client. *)
Definition active_u1 : State :=
  mkState record_u1 (mkClient "kid" (Some record_u1) VNull) [] [].

(** Credentials for a new user. *)
Definition sample_credentials : obj :=
  <["password" := VStr "pw"]> (<["username" := VStr "bob"]> ∅).

(** A payload whose [_socialIdentity] is truthy and is no token map. *)
Definition number_identity : obj := <[socialIdentityAttribute := VNum 1]> ∅.

(** A transport that answers every request with [record_u1]. *)
Definition T_created : Transport := fun _ _ => Response record_u1.

(** A transport on which every request times out. *)
Definition T_timeout : Transport := fun _ _ => Failure TimeoutError.

(** The identities of a user linked to Facebook, Google and Twitter; the
    Google entry has an empty token. *)
Definition linked_identities : obj :=
  <["twitter" := VStr "tw-token"]>
    (<["google" := VStr ""]>
    (<["facebook" := VStr "old-token"]> ∅)).

(** The record of that user. *)
Definition record_linked : obj :=
  <[socialIdentityAttribute := VObj linked_identities]> record_u1.

(** Its session, active on its client. *)
Definition active_linked : State :=
  mkState record_linked (mkClient "kid" (Some record_linked) VNull) [] [].

(** The pointer [connect] stores for Facebook. *)
Definition facebook_pointer : value :=
  social_pointer "facebook" (VStr "old-token") ∅.

(** [active_linked] on a client whose active social identity is Facebook. *)
Definition pointed_linked : State :=
  mkState record_linked
          (mkClient "kid" (Some record_linked) facebook_pointer) [] [].

(** A session linked to Facebook that has no id yet, on a client whose
    active social identity is Facebook. *)
Definition pointed_local : State :=
  mkState (<[socialIdentityAttribute :=
               VObj (<["facebook" := VStr "old-token"]> ∅)]> ∅)
          (mkClient "kid" None facebook_pointer) [] [].

(** The record the backend stores for a user linked to Facebook. *)
Definition record_facebook : obj :=
  <[socialIdentityAttribute := VObj (<["facebook" := VStr "new-token"]> ∅)]>
    record_u1.

(** A transport that answers every request with [record_facebook]. *)
Definition T_linked : Transport := fun _ _ => Response record_facebook.

(** A transport that does not find the user at the first request it
    receives, and answers [record_facebook] afterwards. *)
Definition T_missing_once : Transport :=
  fun history _ =>
    match length history with
    | 0 => Failure NotFoundError
    | _ => Response record_facebook
    end.

(** ** Further methods of the User class *)

Section UserMore.

Variable T : Transport.

(** [loginWithIdentity(identity, token, options)] (lines 348-352): the
    source calls [this.login(data, options)], so [options] arrives in the
    place of the password and [login] runs with its default options. *)
Definition loginWithIdentity (identity : string) (token : value)
    (options : obj) : M ret :=
  let data :=
    <["_socialIdentity" := VObj (<[identity := token]> ∅)]> (∅ : obj) in
  login T (VObj data) (VObj options) ∅.

(** [signupWithIdentity(identity, tokens, options)] (lines 732-736). *)
Definition signupWithIdentity (identity : string) (tokens : value)
    (options : obj) : M ret :=
  let data :=
    <["_socialIdentity" := VObj (<[identity := tokens]> ∅)]> (∅ : obj) in
  signup T data options.

(** Modelled from the spec: the [MobileIdentityConnect] class (./mic) is not
    among the sources.  Its static [identity] is the name of the one
    provider wired to a refresh routine, and [mic.refresh(token, options)]
    is that routine, an external exchange. *)
Variable mic_identity : string.
Variable mic_refresh : value -> obj -> M value.

Definition refresh_unsupported_message (identity : value) : string :=
  "Unable to refresh the auth token because the " +:+ to_String identity
  +:+ " identity is not supported.".

(** [refreshAuthToken(options)] (lines 821-840).  [socialIdentity[identity]]
    reads the property named by the string form of [identity]. *)
Definition refreshAuthToken (fuel : nat) (options : obj) : M ret :=
  d <- get_this_data ;;
  let socialIdentity := get d socialIdentityAttribute in
  identity <- lift (get_prop socialIdentity "activeIdentity") ;;
  token <- lift (get_prop socialIdentity (to_String identity)) ;;
  token <-
    (if strict_eq identity (VStr mic_identity)
     then mic_refresh token options
     else throw (KinveyError (refresh_unsupported_message identity))) ;;
  connect T fuel (to_String identity) token options.

(** The [hello] bridge is loaded only where [window] exists (lines 24-28);
    what it does is outside the sources: [hello_login identity key] stands
    for [hello.init({identity: key})] followed by [hello(identity).login()],
    [hello_getAuthResponse] for [hello(identity).getAuthResponse()]. *)
Variable hello : bool.
Variable hello_login : string -> value -> res unit.
Variable hello_getAuthResponse : string -> value.

Definition supportedIdentities : list string :=
  ["facebook"; "google"; "linkedIn"].

(** [User.isIdentitySupported(identity)] (lines 444-446). *)
Definition isIdentitySupported (identity : string) : bool :=
  hello && existsb (String.eqb identity) supportedIdentities.

Definition identity_required_message : string :=
  "An identity is required to connect the user.".
Definition identity_unsupported_message (identity : string) : string :=
  "Identity " +:+ identity +:+ " is not supported on this platform.".
Definition unsupported_identity_message : string := "Unsupported identity.".

(** [assign({ collectionName: 'Identities' }, options)]. *)
Definition connect_options (options : obj) : obj :=
  options ∪ {["collectionName" := VStr "Identities"]}.

(** The lookup request of [connectWithIdentity] (lines 542-553).  The
    object given to [url.format] spells its fields [hose] and [pathanme],
    which [url.format] does not read: the URL carries no path.  The [query]
    is not part of the request record. *)
Definition identities_request (options : obj) : Request :=
  {| method := GET;
     authType := Default;
     pathname := "";
     data := None;
     properties := get options "properties";
     timeout := get options "timeout" |}.

(** [connectWithIdentity(identity, options)] (lines 526-570).  The reply's
    [data] is an array, an object with [length] and index properties. *)
Definition connectWithIdentity (fuel : nat) (identity : string)
    (options : obj) : M ret :=
  let options := connect_options options in
  response <-
    then0 (resolve tt) (fun _ =>
      if negb (truthy (VStr identity))
      then throw (KinveyError identity_required_message)
      else if negb (isIdentitySupported identity)
      then throw (KinveyError (identity_unsupported_message identity))
      else execute T (identities_request options)) ;;
  (if strict_eq (get response "length") (VNum 1) then
     let first := get response "0" in
     key <- lift (get_prop first "key") ;;
     appId <- lift (get_prop first "appId") ;;
     clientId <- lift (get_prop first "clientId") ;;
     lift (hello_login identity (js_or key (js_or appId clientId)))
   else throw (KinveyError unsupported_identity_message)) ;;
  connect T fuel identity (hello_getAuthResponse identity) options.

End UserMore.

(** The stored active record and the session's data agree whenever the
    session is the active one. *)
Definition in_step (s : State) : Prop :=
  is_active s = true -> activeUserData (client s) = Some (this_data s).


(** ** UserStore.exists *)

(** Modelled from the spec: [client.executeNetworkRequest] (./client) is not
    among the sources; it is taken to hand the request to the transport.
    [UserStore.exists(username, options)] (part_001, lines 54-65) has no
    default for [options], whose properties are read while the request is
    built. *)
Definition exists_request (key : string) (username properties timeout : value)
    : Request :=
  {| method := POST;
     authType := App;
     pathname := "/rpc/" +:+ key +:+ "/check-username-exists";
     data := Some (<["username" := username]> ∅);
     properties := properties;
     timeout := timeout |}.

Definition UserStore_exists (T : Transport) (username options : value)
    : M value :=
  key <- get_appKey ;;
  properties <- lift (get_prop options "properties") ;;
  timeout <- lift (get_prop options "timeout") ;;
  response <- execute T (exists_request key username properties timeout) ;;
  resolve (get response "usernameExists").

(** ** Command.execute (part_002) *)

Module Command.

Definition required_message : string := "A command is required.".
Definition not_string_message : string := "Command must be a string.".

(** lodash [isString]. *)
Definition isString (v : value) : bool :=
  match v with
  | VStr _ => true
  | _ => false
  end.

(** [assign({ properties: null, timeout: undefined, handler() {} },
    options)]; the [handler] default is a function, which nothing reads,
    and is left out. *)
Definition command_options (options : obj) : obj :=
  options ∪ (<["properties" := VNull]> (<["timeout" := VUndefined]> ∅)).

Definition command_request (appKey command : value) (args : option obj)
    (options : obj) : Request :=
  {| method := POST;
     authType := Default;
     pathname := "/rpc/" +:+ to_String appKey +:+ "/custom/"
                 +:+ to_String command;
     data := args;
     properties := get options "properties";
     timeout := get options "timeout" |}.

(** [Command.execute(command, args, options)].  The path reads
    [options.client.appKey].  A reply that is no success is thrown as its
    error; both that and a rejected request are a [Failure] of the
    transport. *)
Definition execute (T : Transport) (command : value) (args : option obj)
    (options : obj) : M obj :=
  if negb (truthy command) then throw (KinveyError required_message)
  else if negb (isString command) then throw (KinveyError not_string_message)
  else
    let options := command_options options in
    appKey <- lift (get_prop (get options "client") "appKey") ;;
    response <- execute T (command_request appKey command args options) ;;
    resolve response.

End Command.

(** ** The legacy library state (part_004) *)

Module Kinvey.

(** What a synchronous call does: it returns a value or throws a
    [Kinvey.Error] with a message. *)
Inductive outcome (A : Type) : Type :=
  | Returned (a : A)
  | Threw (message : string).
Arguments Returned {A} a.
Arguments Threw {A} message.

(** The variables of the library, and the slot ['activeUser'] of the
    [Storage] object.  [Storage] is outside the sources; what the code does
    with it is [save] the pair of id and auth token, [destroy] it, and
    [get] it back. *)
Record Lib : Type := mkLib {
  activeUser : value;
  activeUserReady : bool;
  stored : option (value * value);
  appKey : value;
  appSecret : value;
  masterSecret : value
}.

(** [null != v]. *)
Definition nonnull (v : value) : bool :=
  match v with
  | VUndefined | VNull => false
  | _ => true
  end.

(** [v.k] for a [v] that is neither [null] nor [undefined]; a primitive has
    no such property. *)
Definition member (v : value) (k : string) : value :=
  match v with
  | VObj o => get o k
  | _ => VUndefined
  end.

(** [null != user._id && null != user._kmd && null != user._kmd.authtoken]
    (line 165). *)
Definition has_credentials (user : value) : bool :=
  nonnull (member user "_id")
  && nonnull (member user "_kmd")
  && nonnull (member (member user "_kmd") "authtoken").

Definition not_ready_message : string :=
  "Kinvey.getActiveUser can only be called after the promise returned by Kinvey.init fulfills or rejects.".
Definition user_argument_message : string :=
  "user argument must contain: _id, _kmd.authtoken.".
Definition appKey_message : string :=
  "options argument must contain: appKey.".
Definition secret_message : string :=
  "options argument must contain: appSecret and/or masterSecret.".

(** [Kinvey.getActiveUser()] (lines 140-148). *)
Definition getActiveUser (l : Lib) : outcome value :=
  if activeUserReady l then Returned (activeUser l)
  else Threw not_ready_message.

(** What [Storage] holds after the update of lines 179-184. *)
Definition stored_for (user : value) : option (value * value) :=
  if nonnull user
  then Some (member user "_id", member (member user "_kmd") "authtoken")
  else None.

(** [Kinvey.setActiveUser(user)] (lines 158-188). *)
Definition setActiveUser (user : value) (l : Lib) : outcome value * Lib :=
  if nonnull user && negb (has_credentials user)
  then (Threw user_argument_message, l)
  else
    let l1 := mkLib (activeUser l) true (stored l)
                    (appKey l) (appSecret l) (masterSecret l) in
    let result := getActiveUser l1 in
    (result,
     mkLib user true (stored_for user)
           (appKey l) (appSecret l) (masterSecret l)).

(** [null != v ? v : null]. *)
Definition or_null (v : value) : value := if nonnull v then v else VNull.

(** How a promise of the library settles: fulfilled with a value, rejected
    with an error of the given name, or rejected with a thrown
    [Kinvey.Error]. *)
Inductive settled : Type :=
  | Fulfilled (v : value)
  | Rejected (name : string)
  | RejectedThrown (message : string).

Section Restore.

(** [Kinvey.Error.INVALID_CREDENTIALS], [Kinvey.User.me] and
    [Kinvey.Sync.init] are outside the sources.  [me] yields the user or
    fails with an error of some name, and may change the library's state;
    [sync_init] succeeds or fails with an error of some name. *)
Variable INVALID_CREDENTIALS : string.
Variable me : Lib -> (value + string) * Lib.
Variable sync_init : value -> option string.

(** [restoreActiveUser()] (lines 98-131), from the point where
    [Storage.get('activeUser')] has answered. *)
Definition restoreActiveUser (l : Lib) : settled * Lib :=
  match stored l with
  | None =>
      match setActiveUser VNull l with
      | (Returned previous, l1) => (Fulfilled previous, l1)
      | (Threw m, l1) => (RejectedThrown m, l1)
      end
  | Some (id, token) =>
      let user :=
        VObj (<["_kmd" := VObj (<["authtoken" := token]> ∅)]>
             (<["_id" := id]> ∅)) in
      match setActiveUser user l with
      | (Threw m, l1) => (RejectedThrown m, l1)
      | (Returned previous, l1) =>
          match me l1 with
          | (inl u, l2) => (Fulfilled u, l2)
          | (inr name, l2) =>
              if String.eqb INVALID_CREDENTIALS name then
                match setActiveUser previous l2 with
                | (Returned _, l3) => (Rejected name, l3)
                | (Threw m, l3) => (RejectedThrown m, l3)
                end
              else (Rejected name, l2)
          end
      end
  end.

(** [Kinvey.init(options)] (lines 203-229): a synchronous part, which may
    throw, and the promise it returns.  [wrapCallbacks] hands the promise
    through. *)
Definition init (options : value) (l : Lib) : outcome settled * Lib :=
  let options := js_or options (VObj ∅) in
  if negb (nonnull (member options "appKey"))
  then (Threw appKey_message, l)
  else if negb (nonnull (member options "appSecret"))
          && negb (nonnull (member options "masterSecret"))
  then (Threw secret_message, l)
  else
    let l1 := mkLib (activeUser l) false (stored l)
                    (member options "appKey")
                    (or_null (member options "appSecret"))
                    (or_null (member options "masterSecret")) in
    match sync_init (member options "sync") with
    | Some name => (Returned (Rejected name), l1)
    | None => let (r, l2) := restoreActiveUser l1 in (Returned r, l2)
    end.

End Restore.

(** The library after a series of [setActiveUser] calls, thrown ones
    included. *)
Definition set_all (users : list value) (l : Lib) : Lib :=
  fold_left (fun l user => snd (setActiveUser user l)) users l.

(** The active user is [null] or [undefined], or has an id and an auth
    token. *)
Definition consistent (l : Lib) : Prop :=
  nonnull (activeUser l) = true -> has_credentials (activeUser l) = true.

End Kinvey.

(** ** The cache (part_005) *)

Module Cache.

Definition adapter_message : string :=
  "You must override the default cache adapter.".

(** The [save] of the registered adapter: it stores the documents or fails
    with a message.  The adapter itself is outside the sources. *)
Definition Adapter : Type := string -> string -> list obj -> option string.

(** The default [store] (lines 3-31). *)
Definition default_store : Adapter := fun _ _ _ => Some adapter_message.

(** [register(cacheStore)] (lines 36-40); [None] stands for a falsy
    argument. *)
Definition register (cacheStore : option Adapter) (store : Adapter)
    : Adapter :=
  match cacheStore with
  | Some c => c
  | None => store
  end.

Definition chars : string := "abcdef0123456789".

(** [generateId(length)] (lines 42-52).  [draw i] stands for the [i]-th
    value of [Math.floor(Math.random() * j)] in the run. *)
Fixpoint generateId (draw : nat -> nat) (next : nat) (length : nat)
    : string :=
  match length with
  | O => ""
  | S n => String.substring (draw next) 1 chars
           +:+ generateId draw (S next) n
  end.

(** What [save] is called with: a falsy value, one document, or an array of
    documents. *)
Inductive input : Type :=
  | Falsy
  | One (doc : obj)
  | Many (docs : list obj).

(** The own enumerable properties [Object.assign] copies from a source. *)
Definition own_properties (v : value) : obj :=
  match v with
  | VObj o => o
  | VStr s =>
      list_to_map (imap (fun i c => (pretty i, VStr c)) (code_units s))
  | _ => ∅
  end.

(** The callback of [docsToSave.map] (lines 92-101); [Object.assign] lets
    the properties of [doc] win over those of its first argument. *)
Definition prepare (draw : nat -> nat) (next : nat) (doc : obj)
    : obj * nat :=
  if negb (truthy (get doc "_id")) then
    (doc ∪ (<["_id" := VStr (generateId draw next 24)]>
           (<["_kmd" := VObj (<["local" := VBool true]>
                               (own_properties (get doc "_kmd")))]> ∅)),
     next + 24)
  else (doc, next).

Fixpoint prepare_all (draw : nat -> nat) (next : nat) (docs : list obj)
    : list obj * nat :=
  match docs with
  | [] => ([], next)
  | doc :: rest =>
      let (doc', next') := prepare draw next doc in
      let (rest', next'') := prepare_all draw next' rest in
      (doc' :: rest', next'')
  end.

(** How [save] settles, what it handed to the adapter (if it called it),
    and the number of draws used. *)
Record saved : Type := mkSaved {
  result : option input + string;   (* fulfilled with null or docs, or rejected *)
  handed : option (list obj);
  drawn : nat
}.

(** [Cache#save(docs)] (lines 76-107). *)
Definition save (store : Adapter) (appKey collectionName : string)
    (draw : nat -> nat) (docs : input) : saved :=
  match docs with
  | Falsy => mkSaved (inl None) None 0
  | _ =>
      let docsToSave :=
        match docs with
        | Many l => l
        | One doc => [doc]
        | Falsy => []
        end in
      match docsToSave with
      | [] => mkSaved (inl (Some docs)) None 0
      | _ =>
          let (prepared, n) := prepare_all draw 0 docsToSave in
          match store appKey collectionName prepared with
          | Some message => mkSaved (inr message) (Some prepared) n
          | None => mkSaved (inl (Some docs)) (Some prepared) n
          end
      end
  end.

End Cache.

(** ** Sample data for the legacy library and the cache *)

Definition legacy_options : obj :=
  <["masterSecret" := VStr "m"]> (<["appKey" := VStr "k"]> ∅).

Definition legacy_fresh : Kinvey.Lib :=
  Kinvey.mkLib VNull false None VNull VNull VNull.

Definition legacy_ready : Kinvey.Lib :=
  Kinvey.mkLib (VObj record_u1) true (Some (VStr "u1", VStr "T1"))
               (VStr "k") (VStr "s") VNull.

Definition legacy_stale : Kinvey.Lib :=
  Kinvey.mkLib VNull false (Some (VStr "u1", VStr "T1"))
               (VStr "k") (VStr "s") VNull.

Definition me_invalid (l : Kinvey.Lib) : (value + string) * Kinvey.Lib :=
  (inr "InvalidCredentials", l).

Definition sync_ok (sync : value) : option string := None.

Definition sync_failed (sync : value) : option string := Some "SyncError".


(** The documents [Cache#save] works on, and whether [!doc._id] holds. *)
Definition documents (docs : Cache.input) : list obj :=
  match docs with
  | Cache.Many l => l
  | Cache.One doc => [doc]
  | Cache.Falsy => []
  end.

Definition lacks_id (doc : obj) : bool := negb (truthy (get doc "_id")).

Definition local_kmd : obj := <["local" := VBool true]> ∅.

Definition accept_all : Cache.Adapter := fun _ _ _ => None.

Definition draw_cycle (i : nat) : nat := i mod 16.

Definition doc_without_id : obj := <["name" := VStr "a"]> ∅.

Definition doc_null_id : obj :=
  <["_id" := VNull]> (<["name" := VStr "b"]> ∅).


(** ** Equations of the methods

    Each method, run from a state, is unfolded once into the state it
    reaches; the later proofs work from these equations. *)

Section Equations.

Variable T : Transport.

Lemma isActive_eq s : isActive s = (Ok (is_active s), s).
Proof.
  unfold isActive, is_active, then_, getActiveUser, getActiveUserData,
    get_this_data.
  destruct (activeUserData (client s)); reflexivity.
Qed.

Lemma login_eq u p o s :
  login T u p o s =
  let c := trim_credentials (credentials_object u p) in
  let s1 := entered CLogin s in
  let req := login_request (appKey (client s)) c o in
  if is_active s then (Err (ActiveUserError already_active_message), s1)
  else match activeUserData (client s) with
       | Some _ => (Err (ActiveUserError active_exists_message), s1)
       | None =>
           if credentials_missing c
           then (Err (KinveyError credentials_message), s1)
           else match T (sent s) req with
                | Response d =>
                    (Ok (RetUser d),
                     with_active (Some d) (with_data d (sending req s1)))
                | Failure e => (Err e, sending req s1)
                end
       end.
Proof.
  unfold login, then_ at 1. cbn [enter]. unfold then_ at 1.
  rewrite isActive_eq.
  change (is_active (entered CLogin s)) with (is_active s).
  destruct (is_active s); [reflexivity|].
  unfold then_ at 1, getActiveUser, getActiveUserData. cbn [entered client].
  destruct (activeUserData (client s)); [reflexivity|].
  cbn zeta. destruct (credentials_missing _); [reflexivity|].
  unfold then_, get_appKey, execute. cbn [entered client sent].
  destruct (T _ _); reflexivity.
Qed.

Lemma logout_eq o s :
  logout T o s =
  let s1 := entered CLogout s in
  let req := logout_request (appKey (client s)) o in
  if is_active s
  then (Promise (Ok RetThis), with_active None (sending req s1))
  else (Immediate RetNull, s1).
Proof.
  unfold logout, then_ at 1. cbn [enter]. rewrite isActive_eq.
  change (is_active (entered CLogout s)) with (is_active s).
  destruct (is_active s) eqn:Ha; [|reflexivity].
  unfold then_ at 1, get_appKey. unfold then_ at 1, catch, then_ at 1, execute.
  assert (Hs : forall r, is_active (sending r (entered CLogout s)) = true)
    by (intro; exact Ha).
  destruct (T _ _); cbn [resolve]; unfold then_ at 1;
    rewrite isActive_eq, Hs; reflexivity.
Qed.

Lemma signup_eq d o s :
  signup T d o s = (Err TypeError, entered CSignup s).
Proof. reflexivity. Qed.

Lemma update_eq d o s :
  update T d o s =
  let s1 := entered CUpdate s in
  if negb (truthy (get d idAttribute))
  then (Err (KinveyError missing_id_message), s1)
  else match scoped_user d o with
       | Ok u =>
           let req := update_request (appKey (client s)) u o in
           match T (sent s) req with
           | Response r =>
               let s2 := with_data r (sending req s1) in
               if is_active s2
               then (Ok (RetUser r), with_active (Some r) s2)
               else (Ok RetThis, s2)
           | Failure e => (Err e, with_data u (sending req s1))
           end
       | Err e => (Err e, s1)
       | OutOfFuel => (OutOfFuel, s1)
       end.
Proof.
  unfold update, then_ at 1. cbn [enter]. unfold then_ at 1, UserStore_save.
  unfold then_ at 1. cbn [resolve].
  destruct (negb _); [reflexivity|].
  unfold then_ at 1, lift. destruct (scoped_user d o) as [u|e|]; [|reflexivity..].
  unfold then_ at 1. cbn [set_this_data]. unfold NetworkStore_save.
  unfold then_ at 1, get_appKey, execute.
  cbn [with_data entered client sent].
  destruct (T _ _) as [r|e]; [|reflexivity].
  unfold then_ at 1. cbn [set_this_data]. unfold then_ at 1.
  rewrite isActive_eq. unfold is_active.
  cbn [with_data sending entered client this_data].
  destruct (activeUserData (client s)); [destruct (strict_eq _ _)|]; reflexivity.
Qed.

Lemma me_eq o s :
  me T o s =
  let s1 := entered CMe s in
  let req := me_request (appKey (client s)) o in
  match T (sent s) req with
  | Response d =>
      let d' := refreshed (activeUserData (client s)) d in
      (Ok (RetUser d'), with_active (Some d') (with_data d' (sending req s1)))
  | Failure e => (Err e, sending req s1)
  end.
Proof.
  unfold me, then_ at 1. cbn [enter].
  unfold then_ at 1, get_appKey. unfold then_ at 1, execute.
  cbn [entered client sent].
  destruct (T _ _) as [d|e]; [|reflexivity].
  unfold refreshed, then_ at 1. cbn [set_this_data].
  unfold then_ at 1. cbn [get_this_data with_data this_data].
  destruct (negb (truthy (authtoken d))); [|reflexivity].
  unfold then_, getActiveUser, getActiveUserData.
  cbn [with_data sending entered client].
  destruct (activeUserData (client s)); reflexivity.
Qed.

Lemma connect_eq f identity token o s :
  connect T (S f) identity token o s =
  match set_prop (js_or (get (this_data s) socialIdentityAttribute) (VObj ∅))
                 identity token with
  | Ok si =>
      let d := <[socialIdentityAttribute := si]> (this_data s) in
      let s2 := with_data d (entered CConnect s) in
      let o' := if is_active s2 then <["_identity" := VStr identity]> o
                else o in
      after_attempt identity o'
        (if is_active s2 then update T d o' s2
         else login T (VObj d) VNull o' s2)
  | Err e => (Err e, entered CConnect s)
  | OutOfFuel => (OutOfFuel, entered CConnect s)
  end.
Proof.
  cbn [connect]. unfold then_ at 1. cbn [enter].
  unfold then_ at 1, connect_merge. unfold then_ at 1. cbn [get_this_data].
  unfold then_ at 1, lift. cbn [entered this_data].
  destruct (set_prop _ _ _) as [si| |]; [|reflexivity..].
  unfold then_ at 1. cbn [set_this_data resolve].
  unfold then_ at 1. rewrite isActive_eq.
  cbn zeta.
  set (s2 := with_data _ (entered CConnect s)).
  unfold then_ at 1, catch, then_ at 1, after_attempt. cbn [resolve].
  destruct (is_active s2).
  - destruct (update _ _ _ _) as [[r|e|] s3]; [reflexivity| |reflexivity].
    destruct (is_NotFoundError e); [|reflexivity].
    unfold then_ at 1, get_this_data, then0, then_ at 1.
    rewrite signup_eq. reflexivity.
  - destruct (login _ _ _ _ _) as [[r|e|] s3]; [reflexivity| |reflexivity].
    destruct (is_NotFoundError e); [|reflexivity].
    unfold then_ at 1, get_this_data, then0, then_ at 1.
    rewrite signup_eq. reflexivity.
Qed.

Lemma connect_finish_eq identity o s :
  connect_finish identity o s =
  match get_prop (get (this_data s) socialIdentityAttribute) identity with
  | Ok t => (Ok RetThis, with_pointer (social_pointer identity t o) s)
  | Err e => (Err e, s)
  | OutOfFuel => (OutOfFuel, s)
  end.
Proof.
  unfold connect_finish, then_, get_this_data, lift.
  destruct (get_prop _ _); reflexivity.
Qed.

Lemma disconnect_finish_eq identity s :
  disconnect_finish identity s =
  match get_prop (activeSocialIdentity (client s)) "identity" with
  | Ok p =>
      (Ok RetThis,
       if strict_eq p (VStr identity) then with_pointer VNull s else s)
  | Err e => (Err e, s)
  | OutOfFuel => (OutOfFuel, s)
  end.
Proof.
  unfold disconnect_finish, then_, getActiveSocialIdentity, lift.
  destruct (get_prop _ _) as [p| |]; [|reflexivity..].
  destruct (strict_eq p _); reflexivity.
Qed.

Lemma disconnect_eq identity o s :
  disconnect T identity o s =
  match delete_prop (js_or (get (this_data s) socialIdentityAttribute)
                           (VObj ∅)) identity with
  | Ok si =>
      (Err TypeError,
       with_data (<[socialIdentityAttribute := si]> (this_data s))
                 (entered CDisconnect s))
  | Err e => (Err e, entered CDisconnect s)
  | OutOfFuel => (OutOfFuel, entered CDisconnect s)
  end.
Proof.
  unfold disconnect, then_ at 1. cbn [enter].
  unfold then_ at 1, disconnect_remove. unfold then_ at 1. cbn [get_this_data].
  unfold then_ at 1, lift. cbn [entered this_data].
  destruct (delete_prop _ _) as [si| |]; reflexivity.
Qed.

End Equations.

(** ** Facts about values *)

Lemma strict_eq_refl_scalar (v : value) :
  (forall o, v <> VObj o) -> strict_eq v v = true.
Proof.
  destruct v as [| |b|n|x|o]; intros H; cbn.
  - reflexivity.
  - reflexivity.
  - destruct b; reflexivity.
  - apply Z.eqb_refl.
  - apply String.eqb_refl.
  - destruct (H o eq_refl).
Qed.

Lemma strict_eq_true (a b : value) : strict_eq a b = true -> a = b.
Proof.
  destruct a as [| |x|x|x|x], b as [| |y|y|y|y]; cbn; try discriminate;
    try reflexivity; intros H.
  - apply Bool.eqb_prop in H. congruence.
  - apply Z.eqb_eq in H. congruence.
  - apply String.eqb_eq in H. congruence.
Qed.

Lemma strict_eq_scalar (a b : value) :
  (forall o, a <> VObj o) -> (strict_eq a b = true <-> a = b).
Proof.
  intros H. split.
  - apply strict_eq_true.
  - intros <-. apply strict_eq_refl_scalar, H.
Qed.

Lemma get_insert_eq (o : obj) k v : get (<[k := v]> o) k = v.
Proof. unfold get. rewrite lookup_insert_eq. reflexivity. Qed.

Lemma get_insert_ne (o : obj) k k' v :
  k <> k' -> get (<[k := v]> o) k' = get o k'.
Proof. intros H. unfold get. rewrite lookup_insert_ne by exact H. reflexivity. Qed.

(** ** The active session *)

(** C10.  [isActive] answers true exactly when the client stores an active
    record whose [_id] is strictly equal to the [_id] of this session's
    data.  For an id that is not an object this is equality of the two id
    values, so the answer depends on the session only through its id: every
    session with the same id gets the same answer, and a session without an
    id is active whenever the stored record has no id either. *)
Theorem isActive_decided_by_id (c : Client) (d : obj)
    (sn : list Request) (cl : list call) :
  let s := mkState d c sn cl in
  exists b : bool,
    isActive s = (Ok b, s) /\
    (b = true <->
     exists a, activeUserData c = Some a /\
               strict_eq (get a idAttribute) (get d idAttribute) = true) /\
    (forall a, activeUserData c = Some a ->
               (forall o, get a idAttribute <> VObj o) ->
               (b = true <-> get a idAttribute = get d idAttribute)) /\
    (forall d2 sn2 cl2, get d2 idAttribute = get d idAttribute ->
       isActive (mkState d2 c sn2 cl2) = (Ok b, mkState d2 c sn2 cl2)) /\
    (forall a, activeUserData c = Some a -> a !! idAttribute = None ->
       isActive (mkState ∅ c sn cl) = (Ok true, mkState ∅ c sn cl)).
Proof.
  intros s. exists (is_active s). split; [apply isActive_eq|].
  unfold s, is_active. cbn [client this_data].
  repeat split.
  - destruct (activeUserData c) as [a|]; [|discriminate].
    intros H. exists a. split; [reflexivity|exact H].
  - intros (a & -> & H). exact H.
  - rewrite H. intros Hs. apply strict_eq_true, Hs.
  - rewrite H. intros Hs. apply strict_eq_scalar; assumption.
  - intros d2 sn2 cl2 Hid. rewrite isActive_eq. unfold is_active.
    cbn [client this_data]. rewrite Hid. reflexivity.
  - intros a Ha Hnone. rewrite isActive_eq. unfold is_active.
    cbn [client this_data]. rewrite Ha. unfold get at 1 2.
    rewrite Hnone, lookup_empty. reflexivity.
Qed.

(** A second session object with the active user's id is active, and a
    new session without id is active on a client whose stored record has no
    id. *)
Lemma isActive_decided_by_id_witness :
  fst (isActive (mkState record_u1_copy (client active_u1) [] [])) = Ok true /\
  fst (isActive (mkState ∅ client_without_id [] [])) = Ok true.
Proof.
  split.
  - destruct (isActive_decided_by_id (client active_u1) record_u1 [] [])
      as (b & _ & H2 & _ & H4 & _).
    assert (Hb : b = true).
    { apply H2. exists record_u1. split; reflexivity. }
    pose proof (H4 record_u1_copy [] [] eq_refl) as E.
    rewrite Hb in E. exact (f_equal fst E).
  - destruct (isActive_decided_by_id client_without_id ∅ [] [])
      as (b & _ & _ & _ & _ & H5).
    exact (f_equal fst (H5 ∅ eq_refl eq_refl)).
Defined.

(** ** logout *)

(** C4.  On a session that is not active, [logout] hands back [null] at
    once and nothing is sent.  On the active session it sends one request,
    a POST to [/user/<appKey>/_logout] under the session's credentials,
    without body and with the [properties] and [timeout] of the options;
    whatever the transport answers, the promise is fulfilled with this
    session and the client's active record is cleared. *)
Theorem logout_clears_active (T : Transport) (o : obj) (s : State) :
  (isActive s = (Ok false, s) ->
   exists s', logout T o s = (Immediate RetNull, s') /\
              sent s' = sent s /\ client s' = client s /\
              this_data s' = this_data s) /\
  (isActive s = (Ok true, s) ->
   exists s' request,
     logout T o s = (Promise (Ok RetThis), s') /\
     sent s' = sent s ++ [request] /\
     method request = POST /\
     authType request = Session /\
     pathname request = "/user/" +:+ appKey (client s) +:+ "/_logout" /\
     data request = None /\
     properties request = get o "properties" /\
     timeout request = get o "timeout" /\
     activeUserData (client s') = None /\
     activeSocialIdentity (client s') = activeSocialIdentity (client s) /\
     this_data s' = this_data s).
Proof.
  rewrite isActive_eq, logout_eq. cbn zeta. split; intros [= ->].
  - eexists. split; [reflexivity|]. repeat split.
  - eexists. eexists. split; [reflexivity|]. repeat split.
Qed.

Lemma logout_clears_active_witness :
  (exists s', logout T_timeout ∅ anonymous = (Immediate RetNull, s') /\
              sent s' = []) /\
  (exists s', logout T_timeout ∅ active_u1 = (Promise (Ok RetThis), s') /\
              sent s' = [ {| method := POST;
                             authType := Session;
                             pathname := "/user/kid/_logout";
                             data := None;
                             properties := VUndefined;
                             timeout := VUndefined |} ] /\
              activeUserData (client s') = None) /\
  (exists s', logout T_created ∅ active_u1 = (Promise (Ok RetThis), s') /\
              activeUserData (client s') = None).
Proof.
  split; [|split].
  - destruct (proj1 (logout_clears_active T_timeout ∅ anonymous) eq_refl)
      as (s' & H1 & H2 & _).
    exists s'. split; assumption.
  - destruct (proj2 (logout_clears_active T_timeout ∅ active_u1) eq_refl)
      as (s' & [m a p d pr t] & H1 & H2 & H3 & H4 & H5 & H6 & H7 & H8 & H9
          & _).
    cbn in H3, H4, H5, H6, H7, H8. subst.
    exists s'. repeat split; assumption.
  - destruct (proj2 (logout_clears_active T_created ∅ active_u1) eq_refl)
      as (s' & request & H1 & _ & _ & _ & _ & _ & _ & _ & H9 & _).
    exists s'. split; assumption.
Defined.

(** ** me *)

(** C5.  When the transport answers [me] with a record, the session's data
    becomes that record, except that a record without auth token receives
    the auth token of the session that was active before; the outcome is
    stored as the active record in every case. *)
Theorem me_carries_token_forward (T : Transport) (o : obj) (s : State)
    (d : obj) :
  T (sent s) (me_request (appKey (client s)) o) = Response d ->
  exists d' s',
    me T o s = (Ok (RetUser d'), s') /\
    this_data s' = d' /\
    activeUserData (client s') = Some d' /\
    (forall k, k <> kmdAttribute -> d' !! k = d !! k) /\
    (truthy (authtoken d) = true -> d' = d) /\
    (truthy (authtoken d) = false ->
     match activeUserData (client s) with
     | Some a => authtoken d' = authtoken a /\
                 kmd_of d' = <["authtoken" := authtoken a]> (kmd_of d)
     | None => d' = d
     end).
Proof.
  intros HT. rewrite me_eq. cbn zeta. rewrite HT.
  eexists. eexists. split; [reflexivity|].
  split; [reflexivity|]. split; [reflexivity|].
  unfold refreshed.
  destruct (truthy (authtoken d)) eqn:Ht; cbn [negb].
  - repeat split; [discriminate].
  - destruct (activeUserData (client s)) as [a|].
    + split.
      { intros k Hk. unfold set_authtoken. apply lookup_insert_ne. congruence. }
      split; [discriminate|]. intros _.
      assert (Hk : kmd_of (set_authtoken (authtoken a) d)
                   = <["authtoken" := authtoken a]> (kmd_of d)).
      { unfold set_authtoken. unfold kmd_of at 1. rewrite get_insert_eq.
        reflexivity. }
      split; [|exact Hk].
      unfold authtoken at 1. rewrite Hk. apply get_insert_eq.
    + repeat split.
Qed.

(** The scenario of the specification: the record of [me] has no
    [_kmd.authtoken], the active session has ["T1"]. *)
Lemma me_carries_token_forward_witness :
  exists d' s',
    me (fun _ _ => Response (<[idAttribute := VStr "u1"]> ∅)) ∅ active_u1
    = (Ok (RetUser d'), s') /\
    this_data s' = d' /\
    activeUserData (client s') = Some d' /\
    authtoken d' = VStr "T1".
Proof.
  destruct (me_carries_token_forward
              (fun _ _ => Response (<[idAttribute := VStr "u1"]> ∅))
              ∅ active_u1 (<[idAttribute := VStr "u1"]> ∅) eq_refl)
    as (d' & s' & H1 & H2 & H3 & _ & _ & H6).
  exists d', s'. repeat split; try assumption.
  destruct (H6 eq_refl) as [H7 _]. rewrite H7. reflexivity.
Defined.

(** ** Facts about strings and trimming *)

Lemma append_cons (c : ascii) (a b : string) :
  String c a +:+ b = String c (a +:+ b).
Proof. reflexivity. Qed.

Lemma append_empty_r (s : string) : s +:+ "" = s.
Proof.
  induction s as [|c s IH]; [reflexivity|].
  rewrite append_cons, IH. reflexivity.
Qed.

Lemma append_assoc (a b c : string) : (a +:+ b) +:+ c = a +:+ (b +:+ c).
Proof.
  induction a as [|x a IH]; [reflexivity|].
  rewrite !append_cons, IH. reflexivity.
Qed.

Lemma length_append (a b : string) :
  String.length (a +:+ b) = String.length a + String.length b.
Proof.
  induction a as [|x a IH]; [reflexivity|].
  rewrite append_cons. cbn [String.length]. rewrite IH. reflexivity.
Qed.

Lemma join_app (l1 l2 : list string) : join (l1 ++ l2) = join l1 +:+ join l2.
Proof.
  induction l1 as [|x l1 IH]; [reflexivity|].
  cbn [app join fold_right]. fold (join (l1 ++ l2)). fold (join l1).
  rewrite IH. symmetry. apply append_assoc.
Qed.

Lemma list_ascii_append (a b : string) :
  list_ascii_of_string (a +:+ b)
  = list_ascii_of_string a ++ list_ascii_of_string b.
Proof.
  induction a as [|x a IH]; [reflexivity|].
  rewrite append_cons. cbn [list_ascii_of_string app]. rewrite IH.
  reflexivity.
Qed.

Lemma string_of_list_app (l1 l2 : list ascii) :
  string_of_list_ascii (l1 ++ l2)
  = string_of_list_ascii l1 +:+ string_of_list_ascii l2.
Proof.
  induction l1 as [|x l1 IH]; [reflexivity|].
  cbn [app string_of_list_ascii]. rewrite IH. reflexivity.
Qed.

Lemma reverse_append (a b : string) :
  reverse (a +:+ b) = reverse b +:+ reverse a.
Proof.
  unfold reverse. rewrite list_ascii_append, rev_app_distr.
  apply string_of_list_app.
Qed.

Lemma reverse_involutive (a : string) : reverse (reverse a) = a.
Proof.
  unfold reverse. rewrite list_ascii_of_string_of_list_ascii, rev_involutive.
  apply string_of_list_ascii_of_string.
Qed.

Lemma length_reverse (a : string) : String.length (reverse a) = String.length a.
Proof.
  induction a as [|x a IH]; [reflexivity|].
  change (String x a) with (String x "" +:+ a).
  rewrite reverse_append, !length_append, IH.
  change (String.length (reverse (String x ""))) with 1.
  cbn [String.length]. lia.
Qed.

Lemma drop_prefix_spec (p s r : string) :
  drop_prefix p s = Some r <-> s = p +:+ r.
Proof.
  revert s. induction p as [|a p IH]; intros s; cbn [drop_prefix].
  - split; [intros [= ->]; reflexivity|intros ->; reflexivity].
  - rewrite append_cons. destruct s as [|b s].
    + split; discriminate.
    + destruct (Ascii.eqb a b) eqn:E.
      * apply Ascii.eqb_eq in E as ->. rewrite IH.
        split; [intros ->; reflexivity|intros [= ->]; reflexivity].
      * apply Ascii.eqb_neq in E. split; [discriminate|].
        intros [= -> _]. destruct (E eq_refl).
Qed.

Lemma drop_one_some (ps : list string) (s r : string) :
  drop_one ps s = Some r -> exists p, p ∈ ps /\ s = p +:+ r.
Proof.
  unfold drop_one. induction ps as [|p ps IH]; cbn; [discriminate|].
  destruct (drop_prefix p s) as [r'|] eqn:E; cbn.
  - intros [= ->]. exists p. split; [left|]. apply drop_prefix_spec, E.
  - destruct (list_find _ _) as [[i x]|]; cbn in *.
    + intros H. destruct (IH H) as (q & Hq & Hs).
      exists q. split; [right; exact Hq|exact Hs].
    + discriminate.
Qed.

Lemma drop_one_none (ps : list string) (s : string) :
  drop_one ps s = None -> forall p r, p ∈ ps -> s <> p +:+ r.
Proof.
  unfold drop_one. induction ps as [|p ps IH]; cbn.
  - intros _ q r Hq. apply elem_of_nil in Hq. destruct Hq.
  - destruct (drop_prefix p s) as [r'|] eqn:E; cbn; [discriminate|].
    intros H q r Hq Hs. apply elem_of_cons in Hq as [->|Hq].
    + apply drop_prefix_spec in Hs. congruence.
    + revert Hs. apply IH; [|exact Hq].
      destruct (list_find _ _) as [[i [x|]]|]; cbn in *;
        [discriminate|reflexivity|reflexivity].
Qed.

Lemma drop_all_prefix (ps : list string) (n : nat) (s : string) :
  exists taken,
    Forall (fun w => w ∈ ps) taken /\ s = join taken +:+ drop_all ps n s.
Proof.
  revert s. induction n as [|n IH]; intros s; cbn.
  - exists []. split; [constructor|reflexivity].
  - destruct (drop_one ps s) as [s'|] eqn:E.
    + destruct (drop_one_some ps s s' E) as (p & Hp & ->).
      destruct (IH s') as (taken & Ht & Hs).
      exists (p :: taken). split; [constructor; assumption|].
      change (join (p :: taken)) with (p +:+ join taken).
      rewrite append_assoc, <- Hs. reflexivity.
    + exists []. split; [constructor|reflexivity].
Qed.

Lemma drop_all_done (ps : list string) (n : nat) (s : string) :
  Forall (fun p => p <> "") ps ->
  String.length s <= n ->
  drop_one ps (drop_all ps n s) = None.
Proof.
  intros Hps. revert s. induction n as [|n IH]; intros s Hn; cbn.
  - destruct s as [|c s]; [|cbn in Hn; lia].
    destruct (drop_one ps "") as [r|] eqn:E; [|reflexivity].
    destruct (drop_one_some ps "" r E) as (p & Hp & Hs).
    rewrite Forall_forall in Hps. specialize (Hps p Hp).
    destruct p; [destruct (Hps eq_refl)|discriminate Hs].
  - destruct (drop_one ps s) as [s'|] eqn:E; [|exact E].
    apply IH. destruct (drop_one_some ps s s' E) as (p & Hp & ->).
    rewrite Forall_forall in Hps. specialize (Hps p Hp).
    rewrite length_append in Hn. destruct p; [destruct (Hps eq_refl)|].
    cbn in Hn. lia.
Qed.

Lemma white_space_nonempty : Forall (fun p => p <> "") white_space.
Proof. repeat constructor; discriminate. Qed.

Lemma reversed_nonempty :
  Forall (fun p => p <> "") (map reverse white_space).
Proof. repeat constructor; discriminate. Qed.

Lemma join_reversed (l : list string) :
  Forall (fun w => w ∈ map reverse white_space) l ->
  exists l', Forall (fun w => w ∈ white_space) l' /\
             reverse (join l) = join l'.
Proof.
  induction 1 as [|w l Hw _ (l' & Hl' & E)].
  - exists []. split; [constructor|reflexivity].
  - apply list_elem_of_fmap in Hw as (w0 & -> & Hw0).
    exists (l' ++ [w0]). split.
    + apply Forall_app. split; [exact Hl'|].
      constructor; [exact Hw0|constructor].
    + change (join (reverse w0 :: l)) with (reverse w0 +:+ join l).
      rewrite reverse_append, reverse_involutive, E, join_app.
      change (join [w0]) with (w0 +:+ "").
      rewrite append_empty_r. reflexivity.
Qed.

Lemma trim_surrounding (x : string) :
  exists before after,
    x = join before +:+ trim x +:+ join after /\
    Forall (fun w => w ∈ white_space) before /\
    Forall (fun w => w ∈ white_space) after /\
    (forall w rest, w ∈ white_space -> trim x <> w +:+ rest) /\
    (forall w rest, w ∈ white_space -> trim x <> rest +:+ w).
Proof.
  unfold trim.
  destruct (drop_all_prefix white_space (String.length x) x)
    as (before & Hb & Hx).
  fold (trim_start x) in Hx.
  pose proof (drop_all_done white_space (String.length x) x
                white_space_nonempty (le_n _)) as Hstart.
  fold (trim_start x) in Hstart.
  set (t := trim_start x) in *.
  destruct (drop_all_prefix (map reverse white_space) (String.length t)
              (reverse t)) as (taken & Ht & Hr).
  pose proof (drop_all_done (map reverse white_space) (String.length t)
                (reverse t) reversed_nonempty
                ltac:(rewrite length_reverse; apply le_n)) as Hend.
  set (u := drop_all _ _ (reverse t)) in *.
  destruct (join_reversed taken Ht) as (after & Ha & Hj).
  assert (Et : t = reverse u +:+ join after).
  { rewrite <- (reverse_involutive t), Hr, reverse_append, Hj. reflexivity. }
  exists before, after. unfold trim_end. fold u.
  split; [rewrite <- Et; exact Hx|]. split; [exact Hb|]. split; [exact Ha|].
  split.
  - intros w rest Hw E.
    apply (drop_one_none _ _ Hstart w (rest +:+ join after) Hw).
    rewrite Et, E. apply append_assoc.
  - intros w rest Hw E.
    apply (drop_one_none _ _ Hend (reverse w) (reverse rest)).
    + apply list_elem_of_fmap. exists w. split; [reflexivity|exact Hw].
    + rewrite <- reverse_append, <- E. symmetry. apply reverse_involutive.
Qed.

(** ** login: credentials *)

Lemma credentials_guard_after_trim (c : obj) :
  credentials_missing (trim_credentials c) = lacks_credentials c.
Proof.
  unfold credentials_missing, trim_credentials, lacks_credentials, supplied.
  change socialIdentityAttribute with "_socialIdentity".
  destruct (truthy (get c "_socialIdentity")) eqn:Hs; cbn [negb].
  - rewrite Hs. cbn [negb]. rewrite !andb_false_r. reflexivity.
  - destruct (truthy (get c "username")) eqn:Hu;
      destruct (truthy (get c "password")) eqn:Hp;
      repeat first [ rewrite get_insert_eq
                   | rewrite get_insert_ne by discriminate
                   | rewrite Hu | rewrite Hp | rewrite Hs ];
      cbn [negb andb orb strict_eq truthy].
    + destruct (String.eqb (trim (to_String (get c "username"))) "");
        destruct (String.eqb (trim (to_String (get c "password"))) "");
        reflexivity.
    + destruct (String.eqb (trim (to_String (get c "username"))) "");
        reflexivity.
    + reflexivity.
    + reflexivity.
Qed.

Lemma trim_credentials_transmitted (c : obj) :
  lacks_credentials c = false -> trim_credentials c = transmitted c.
Proof.
  unfold lacks_credentials, trim_credentials, transmitted, supplied.
  change socialIdentityAttribute with "_socialIdentity".
  destruct (truthy (get c "_socialIdentity")) eqn:Hs; cbn [negb];
    [reflexivity|].
  rewrite andb_true_r. intros H. apply negb_false_iff in H.
  apply andb_true_iff in H as [Hu Hp].
  apply andb_true_iff in Hu as [Hu _]. apply andb_true_iff in Hp as [Hp _].
  rewrite Hu. rewrite get_insert_ne by discriminate.
  rewrite Hp. reflexivity.
Qed.

(** What [login] hands to the transport. *)
Lemma login_sent (T : Transport) u p o s :
  let c := credentials_object u p in
  sent (snd (login T u p o s)) =
  match activeUserData (client s) with
  | Some _ => sent s
  | None =>
      if lacks_credentials c then sent s
      else sent s ++ [login_request (appKey (client s)) (transmitted c) o]
  end.
Proof.
  intros c. rewrite login_eq. cbn zeta. unfold is_active.
  rewrite credentials_guard_after_trim. fold c.
  destruct (activeUserData (client s)) as [a|].
  - destruct (strict_eq _ _); reflexivity.
  - destruct (lacks_credentials c) eqn:Hl; [reflexivity|].
    rewrite (trim_credentials_transmitted c Hl).
    destruct (T _ _); reflexivity.
Qed.

(** C7.  [login] hands at most one request to the transport, and exactly
    one whenever the context has no active session and the credentials are
    not lacking.  The request is a POST to [/user/<appKey>/login] whose
    body is the credentials with username and password replaced by their
    trimmed string forms when the credentials carry no social identity, and
    the credentials untouched when they carry one.  Trimming takes white
    space off both ends of a string, all there is, and nothing else. *)
Theorem login_trims_credentials (T : Transport) (u p : value) (o : obj)
    (s : State) :
  let c := credentials_object u p in
  let s' := snd (login T u p o s) in
  (exists new,
     sent s' = sent s ++ new /\
     length new <= 1 /\
     (activeUserData (client s) = None -> lacks_credentials c = false ->
      length new = 1) /\
     (forall request, request ∈ new ->
        method request = POST /\
        authType request = App /\
        pathname request = "/user/" +:+ appKey (client s) +:+ "/login" /\
        data request = Some (transmitted c) /\
        properties request = get o "properties" /\
        timeout request = get o "timeout")) /\
  (truthy (get c socialIdentityAttribute) = false ->
   get (transmitted c) "username" = VStr (trim (to_String (get c "username")))
   /\ get (transmitted c) "password"
      = VStr (trim (to_String (get c "password")))
   /\ forall k, k <> "username" -> k <> "password" ->
                transmitted c !! k = c !! k) /\
  (truthy (get c socialIdentityAttribute) = true -> transmitted c = c) /\
  (forall x : string, exists before after,
     x = join before +:+ trim x +:+ join after /\
     Forall (fun w => w ∈ white_space) before /\
     Forall (fun w => w ∈ white_space) after /\
     (forall w rest, w ∈ white_space -> trim x <> w +:+ rest) /\
     (forall w rest, w ∈ white_space -> trim x <> rest +:+ w)).
Proof.
  intros c s'. unfold s'. rewrite login_sent. fold c.
  split; [|split; [|split]].
  - destruct (activeUserData (client s)) as [a|].
    { exists []. rewrite app_nil_r. split; [reflexivity|].
      split; [cbn; lia|]. split; [discriminate|].
      intros request H. apply elem_of_nil in H. destruct H. }
    destruct (lacks_credentials c).
    { exists []. rewrite app_nil_r. split; [reflexivity|].
      split; [cbn; lia|]. split; [discriminate|].
      intros request H. apply elem_of_nil in H. destruct H. }
    eexists. split; [reflexivity|]. split; [cbn; lia|].
    split; [reflexivity|].
    intros request H. apply list_elem_of_singleton in H as ->.
    repeat split.
  - intros Hs. unfold transmitted. rewrite Hs. split; [|split].
    + rewrite get_insert_ne by discriminate. apply get_insert_eq.
    + apply get_insert_eq.
    + intros k Hu Hp. rewrite lookup_insert_ne by congruence.
      apply lookup_insert_ne. congruence.
  - intros Hs. unfold transmitted. rewrite Hs. reflexivity.
  - apply trim_surrounding.
Qed.

(** The scenario of the specification: [login(" bob ", " pw ")]. *)
Lemma login_trims_credentials_witness :
  sent (snd (login T_created (VStr " bob ") (VStr " pw ") ∅ anonymous)) =
  [ {| method := POST;
       authType := App;
       pathname := "/user/kid/login";
       data := Some sample_credentials;
       properties := VUndefined;
       timeout := VUndefined |} ].
Proof.
  destruct (login_trims_credentials T_created (VStr " bob ") (VStr " pw ")
              ∅ anonymous) as ((new & Hsent & _ & Hone & Hfields) & _).
  rewrite Hsent. specialize (Hone eq_refl eq_refl).
  destruct new as [|[m a pa d pr t] [|x new]]; try discriminate Hone.
  destruct (Hfields _ ltac:(left)) as (H1 & H2 & H3 & H4 & H5 & H6).
  cbn in H1, H2, H3, H4, H5, H6. subst. reflexivity.
Defined.

(** C3, as the code has it.  For credentials that have no
    username-and-password pair, non-empty after trimming, and whose
    [_socialIdentity] is falsy, [login] is rejected and nothing is sent:
    with the [KinveyError] of the credentials guard when the context has no
    active session, and with the [ActiveUserError] of the guards that run
    before it when the context has one.  A truthy [_socialIdentity], token
    map or not, passes the credentials guard: on a context without active
    session the credentials are sent as they are. *)
Theorem login_rejects_missing_credentials (T : Transport) (u p : value)
    (o : obj) (s : State) :
  let c := credentials_object u p in
  (lacks_credentials c = true ->
   exists e s',
     login T u p o s = (Err e, s') /\
     sent s' = sent s /\ this_data s' = this_data s /\ client s' = client s /\
     (activeUserData (client s) = None -> e = KinveyError credentials_message)
     /\ (is_Some (activeUserData (client s)) ->
         exists message, e = ActiveUserError message)) /\
  (truthy (get c socialIdentityAttribute) = true ->
   activeUserData (client s) = None ->
   exists request,
     sent (snd (login T u p o s)) = sent s ++ [request] /\
     method request = POST /\
     pathname request = "/user/" +:+ appKey (client s) +:+ "/login" /\
     data request = Some c).
Proof.
  intros c. split.
  - intros Hl. rewrite login_eq. cbn zeta.
    rewrite credentials_guard_after_trim. fold c. rewrite Hl.
    unfold is_active.
    destruct (activeUserData (client s)) as [a|].
    + destruct (strict_eq _ _); eexists; eexists;
        (split; [reflexivity|]); repeat split; try discriminate; eauto.
    + eexists. eexists. split; [reflexivity|]. repeat split.
      intros [x Hx]. discriminate.
  - intros Hs Hnone. rewrite login_sent. fold c. rewrite Hnone.
    assert (Hl : lacks_credentials c = false).
    { unfold lacks_credentials. rewrite Hs. apply andb_false_r. }
    rewrite Hl. eexists. split; [reflexivity|].
    split; [reflexivity|]. split; [reflexivity|].
    cbn [login_request data]. unfold transmitted. rewrite Hs. reflexivity.
Qed.

Lemma login_rejects_missing_credentials_witness :
  (exists s',
     login T_created (VStr "bob") (VStr "  ") ∅ anonymous
     = (Err (KinveyError credentials_message), s') /\ sent s' = []) /\
  (exists request,
     sent (snd (login T_created (VObj number_identity) VUndefined ∅
                  anonymous)) = [request] /\
     data request = Some number_identity).
Proof.
  split.
  - destruct (proj1 (login_rejects_missing_credentials T_created
                       (VStr "bob") (VStr "  ") ∅ anonymous) eq_refl)
      as (e & s' & H1 & H2 & _ & _ & H5 & _).
    exists s'. rewrite <- (H5 eq_refl). split; assumption.
  - destruct (proj2 (login_rejects_missing_credentials T_created
                       (VObj number_identity) VUndefined ∅ anonymous)
                eq_refl eq_refl)
      as (request & H1 & _ & _ & H4).
    exists request. split; [exact H1|exact H4].
Defined.

(** C3 as stated fails in two places.  Where a session is active, the
    rejection is the [ActiveUserError] of the earlier guard, not the error
    of the credentials guard.  And credentials without username and
    password whose [_socialIdentity] is the number 1, which is no token
    map, are not rejected: they are sent, and the login is fulfilled. *)
Lemma login_missing_credentials_counterexample :
  (lacks_credentials (credentials_object VUndefined VUndefined) = true /\
   login T_created VUndefined VUndefined ∅ active_u1
   = (Err (ActiveUserError already_active_message), entered CLogin active_u1))
  /\
  (get number_identity "username" = VUndefined /\
   get number_identity "password" = VUndefined /\
   get number_identity socialIdentityAttribute = VNum 1 /\
   exists s',
     login T_created (VObj number_identity) VUndefined ∅ anonymous
     = (Ok (RetUser record_u1), s') /\
     sent s' = [login_request "kid" number_identity ∅]) /\
  ~ (forall T u p o s,
       lacks_credentials (credentials_object u p) = true ->
       exists s', login T u p o s
                  = (Err (KinveyError credentials_message), s')
                  /\ sent s' = sent s).
Proof.
  split; [split; reflexivity|]. split.
  - split; [reflexivity|]. split; [reflexivity|]. split; [reflexivity|].
    eexists. split; [vm_compute; reflexivity|]. reflexivity.
  - intros H.
    destruct (H T_created VUndefined VUndefined ∅ active_u1 eq_refl)
      as (s' & Hs & _).
    discriminate Hs.
Qed.

(** ** The active-session guards of login and signup *)

(** The state a login reaches when its request is answered with a record. *)
Lemma login_response (T : Transport) (u p : value) (o : obj) (s : State)
    (d : obj) :
  let c := credentials_object u p in
  let request := login_request (appKey (client s)) (transmitted c) o in
  activeUserData (client s) = None ->
  lacks_credentials c = false ->
  T (sent s) request = Response d ->
  login T u p o s =
  (Ok (RetUser d),
   with_active (Some d) (with_data d (sending request (entered CLogin s)))).
Proof.
  intros c request Hnone Hl HT. rewrite login_eq. cbn zeta.
  unfold is_active. rewrite Hnone, credentials_guard_after_trim.
  fold c. rewrite Hl, (trim_credentials_transmitted c Hl).
  fold request. rewrite HT. reflexivity.
Qed.

(** C1.  On a context that has an active session, [login] is rejected with
    [ActiveUserError], whether or not the active session is this one.
    [signup] is not: whatever the context holds and whatever its options,
    it throws a [TypeError] at its first [.then0] (line 697), before its
    guard looks at the active session; nothing is sent, the session's data
    and the client's stores are as before, and no session is promoted.
    Hence, from a context without active session, a [signup] followed by a
    [login]: the signup throws and the login is fulfilled as soon as the
    transport answers its request. *)
Theorem signup_misses_conflict_guard (T : Transport) :
  (forall s a, activeUserData (client s) = Some a ->
     forall u p o,
       login T u p o s =
       (Err (ActiveUserError (if is_active s then already_active_message
                              else active_exists_message)),
        entered CLogin s)) /\
  (forall s d o,
     signup T d o s = (Err TypeError, entered CSignup s) /\
     sent (entered CSignup s) = sent s /\
     this_data (entered CSignup s) = this_data s /\
     client (entered CSignup s) = client s) /\
  (forall s d o u p o' r,
     activeUserData (client s) = None ->
     lacks_credentials (credentials_object u p) = false ->
     T (sent s) (login_request (appKey (client s))
                   (transmitted (credentials_object u p)) o') = Response r ->
     exists s1 s2,
       signup T d o s = (Err TypeError, s1) /\
       activeUserData (client s1) = None /\
       login T u p o' s1 = (Ok (RetUser r), s2) /\
       activeUserData (client s2) = Some r).
Proof.
  split; [|split].
  - intros s a Ha u p o. rewrite login_eq. cbn zeta.
    destruct (is_active s); [reflexivity|]. rewrite Ha. reflexivity.
  - intros s d o. rewrite signup_eq. repeat split.
  - intros s d o u p o' r Hnone Hl HT. rewrite signup_eq.
    eexists. eexists. split; [reflexivity|]. split; [exact Hnone|].
    rewrite (login_response T u p o' (entered CSignup s) r Hnone Hl HT).
    split; reflexivity.
Qed.

(** The failing inputs: a signup on a context whose active session is
    [record_u1], and a signup followed by a login on a fresh context. *)
Lemma signup_misses_conflict_guard_witness :
  login T_created (VStr "bob") (VStr "pw") ∅ active_u1 =
    (Err (ActiveUserError already_active_message), entered CLogin active_u1) /\
  signup T_created sample_credentials ∅ active_u1 =
    (Err TypeError, entered CSignup active_u1) /\
  exists s1 s2,
    signup T_created sample_credentials ∅ anonymous = (Err TypeError, s1) /\
    login T_created (VStr "bob") (VStr "pw") ∅ s1
    = (Ok (RetUser record_u1), s2) /\
    activeUserData (client s2) = Some record_u1.
Proof.
  destruct (signup_misses_conflict_guard T_created) as (H1 & H2 & H3).
  split; [exact (H1 active_u1 record_u1 eq_refl _ _ _)|].
  split.
  - exact (proj1 (H2 active_u1 sample_credentials ∅)).
  - destruct (H3 anonymous sample_credentials ∅ (VStr "bob") (VStr "pw") ∅
                record_u1 eq_refl eq_refl eq_refl)
      as (s1 & s2 & E1 & _ & E2 & E3).
    exists s1, s2. split; [exact E1|]. split; [exact E2|exact E3].
Defined.

(** ** The scoping loop of UserStore.save *)

Section Strip.

Variable _identity : value.

Lemma strip_step_lookup (m : obj) (x k : string) :
  strip_step _identity m x !! k =
  if decide (k = x) then
    (if truthy (get m k) && negb (strict_eq _identity (VStr k))
     then None else m !! k)
  else m !! k.
Proof.
  unfold strip_step. destruct (decide (k = x)) as [->|Hne].
  - destruct (_ && _); [apply lookup_delete_eq|reflexivity].
  - destruct (_ && _); [|reflexivity].
    apply lookup_delete_ne. congruence.
Qed.

Lemma strip_fold_lookup (l : list string) (m : obj) (k : string) :
  fold_left (strip_step _identity) l m !! k =
  if decide (k ∈ l) then
    (if truthy (get m k) && negb (strict_eq _identity (VStr k))
     then None else m !! k)
  else m !! k.
Proof.
  revert m. induction l as [|x l IH]; intros m.
  - cbn [fold_left]. destruct (decide (k ∈ [])) as [H|_]; [|reflexivity].
    apply elem_of_nil in H. destruct H.
  - cbn [fold_left]. rewrite IH. unfold get at 1.
    rewrite !strip_step_lookup.
    destruct (decide (k = x)) as [->|Hne].
    + destruct (decide (x ∈ x :: l)) as [_|Hn];
        [|exfalso; apply Hn; left].
      fold (get m x).
      destruct (truthy (get m x) && negb (strict_eq _identity (VStr x)))
        eqn:Hc; cbn [truthy andb].
      * destruct (decide (x ∈ l)); reflexivity.
      * fold (get m x). rewrite Hc.
        destruct (decide (x ∈ l)); reflexivity.
    + fold (get m k).
      destruct (decide (k ∈ l)) as [Hin|Hnin];
        destruct (decide (k ∈ x :: l)) as [Hin'|Hnin']; try reflexivity.
      * exfalso. apply Hnin'. right. exact Hin.
      * apply elem_of_cons in Hin' as [?|?]; [congruence|contradiction].
Qed.

(** After the loop, an entry is gone exactly when its value was truthy and
    its name is not [options._identity]. *)
Lemma strip_loop_lookup (m : obj) (k : string) :
  strip_loop _identity m !! k =
  match m !! k with
  | Some v => if truthy v && negb (strict_eq _identity (VStr k))
              then None else Some v
  | None => None
  end.
Proof.
  unfold strip_loop. rewrite strip_fold_lookup. unfold get.
  destruct (m !! k) as [v|] eqn:Hk.
  - destruct (decide (k ∈ (map_to_list m).*1)) as [_|Hn]; [reflexivity|].
    exfalso. apply Hn. apply list_elem_of_fmap. exists (k, v).
    split; [reflexivity|]. apply elem_of_map_to_list. exact Hk.
  - destruct (decide _); reflexivity.
Qed.

End Strip.

(** ** The log of requests only grows *)

Lemma extends_refl s : extends s s.
Proof. exists []. symmetry. apply app_nil_r. Qed.

Lemma extends_trans s1 s2 s3 : extends s1 s2 -> extends s2 s3 -> extends s1 s3.
Proof.
  intros [n1 H1] [n2 H2]. exists (n1 ++ n2).
  rewrite H2, H1. symmetry. apply app_assoc.
Qed.

Lemma extends_same s s' : sent s' = sent s -> extends s s'.
Proof. intros H. exists []. rewrite H. symmetry. apply app_nil_r. Qed.

Lemma extends_one s s' r : sent s' = sent s ++ [r] -> extends s s'.
Proof. intros H. exists [r]. exact H. Qed.

Section Grows.

Variable T : Transport.

Lemma login_extends u p o s : extends s (snd (login T u p o s)).
Proof.
  rewrite login_eq. cbn zeta.
  destruct (is_active s); [apply extends_same; reflexivity|].
  destruct (activeUserData (client s)); [apply extends_same; reflexivity|].
  destruct (credentials_missing _); [apply extends_same; reflexivity|].
  destruct (T _ _); eapply extends_one; reflexivity.
Qed.

Lemma signup_extends d o s : extends s (snd (signup T d o s)).
Proof. rewrite signup_eq. apply extends_same. reflexivity. Qed.

Lemma update_extends d o s : extends s (snd (update T d o s)).
Proof.
  rewrite update_eq. cbn zeta.
  destruct (negb _); [apply extends_same; reflexivity|].
  destruct (scoped_user d o); [|apply extends_same; reflexivity..].
  destruct (T _ _); [destruct (is_active _)|];
    eapply extends_one; reflexivity.
Qed.

Lemma connect_finish_sent identity o s :
  sent (snd (connect_finish identity o s)) = sent s.
Proof.
  rewrite connect_finish_eq. destruct (get_prop _ _); reflexivity.
Qed.

Lemma after_attempt_extends identity o attempt :
  extends (snd attempt) (snd (after_attempt identity o attempt)).
Proof.
  destruct attempt as [[r|e|] s3]; cbn [snd after_attempt].
  - apply extends_same, connect_finish_sent.
  - destruct (is_NotFoundError e);
      [apply extends_same; reflexivity|apply extends_refl].
  - apply extends_refl.
Qed.

Lemma connect_extends fuel identity token o s :
  extends s (snd (connect T fuel identity token o s)).
Proof.
  destruct fuel as [|f]; [apply extends_refl|].
  rewrite connect_eq.
  destruct (set_prop _ _ _) as [si|e|]; [|apply extends_same; reflexivity..].
  cbn zeta.
  set (d := <[socialIdentityAttribute := si]> (this_data s)).
  set (s2 := with_data d (entered CConnect s)).
  set (o' := if is_active s2 then _ else o).
  set (attempt := if is_active s2 then update T d o' s2
                  else login T (VObj d) VNull o' s2).
  apply (extends_trans _ s2); [apply extends_same; reflexivity|].
  apply (extends_trans _ (snd attempt)).
  + unfold attempt.
    destruct (is_active s2); [apply update_extends|apply login_extends].
  + apply after_attempt_extends.
Qed.

End Grows.

(** ** connect on the active session *)

Lemma is_active_merge s v c :
  is_active (with_data (<[socialIdentityAttribute := v]> (this_data s))
                       (entered c s)) = is_active s.
Proof.
  unfold is_active. cbn [with_data entered client this_data].
  rewrite get_insert_ne by discriminate. reflexivity.
Qed.

(** C6.  When [connect] runs on the active session for a provider with a
    non-empty name, the first request it sends is the update, and the
    [_socialIdentity] of its payload holds the connected provider's entry
    with the new token, keeps the other entries whose token is falsy and
    has lost every other entry; the rest of the payload is the session's
    data.  Nothing is sent when the session has no id or its
    [_socialIdentity] is not an object. *)
Theorem connect_update_scoped (T : Transport) (fuel : nat)
    (identity : string) (token : value) (o : obj) (s : State) :
  identity <> "" ->
  isActive s = (Ok true, s) ->
  let s' := snd (connect T (S fuel) identity token o s) in
  match js_or (get (this_data s) socialIdentityAttribute) (VObj ∅) with
  | VObj m0 =>
      if truthy (get (this_data s) idAttribute) then
        exists m payload rest,
          sent s' = sent s
                    ++ update_request (appKey (client s)) payload
                         (<["_identity" := VStr identity]> o) :: rest /\
          get payload socialIdentityAttribute = VObj m /\
          (forall k, k <> socialIdentityAttribute ->
                     payload !! k = this_data s !! k) /\
          m !! identity = Some token /\
          (forall k, k <> identity ->
             m !! k = match m0 !! k with
                      | Some v => if truthy v then None else Some v
                      | None => None
                      end)
      else sent s' = sent s
  | _ => sent s' = sent s
  end.
Proof.
  intros Hid Hact s'. rewrite isActive_eq in Hact.
  injection Hact as Hact.
  unfold s'. rewrite connect_eq.
  destruct (js_or _ _) as [| |b|n|x|m0]; try reflexivity.
  cbn [set_prop]. cbn zeta. rewrite is_active_merge, Hact.
  set (d := <[socialIdentityAttribute := _]> (this_data s)).
  set (o' := <["_identity" := VStr identity]> o).
  rewrite update_eq. cbn zeta.
  assert (Hd : get d idAttribute = get (this_data s) idAttribute).
  { unfold d. apply get_insert_ne. discriminate. }
  rewrite Hd.
  destruct (truthy (get (this_data s) idAttribute)); cbn [negb];
    [|reflexivity].
  set (m := strip_loop (VStr identity) (<[identity := token]> m0)).
  assert (Hsc : scoped_user d o'
                = Ok (<[socialIdentityAttribute := VObj m]> d)).
  { unfold scoped_user, o'. rewrite get_insert_eq. cbn [truthy].
    destruct (String.eqb identity "") eqn:He.
    - apply String.eqb_eq in He. contradiction.
    - cbn [negb]. unfold d. rewrite get_insert_eq. reflexivity. }
  rewrite Hsc.
  set (u := <[socialIdentityAttribute := VObj m]> d).
  set (req := update_request _ u o').
  exists m, u.
  set (attempt := match T _ req with Response r => _ | Failure e => _ end).
  assert (Hsent : sent (snd attempt) = sent s ++ [req]).
  { unfold attempt. destruct (T _ req) as [r|e]; [|reflexivity].
    destruct (is_active (with_data r _)); reflexivity. }
  destruct (after_attempt_extends identity o' attempt) as [rest Hrest].
  exists rest. rewrite Hsent in Hrest.
  split; [rewrite Hrest, <- app_assoc; reflexivity|].
  split; [apply get_insert_eq|].
  split.
  { intros k Hk. unfold u, d. rewrite !lookup_insert_ne by congruence.
    reflexivity. }
  unfold m. split.
  - rewrite strip_loop_lookup, lookup_insert_eq. cbn [strict_eq].
    rewrite String.eqb_refl, andb_false_r. reflexivity.
  - intros k Hk. rewrite strip_loop_lookup.
    rewrite lookup_insert_ne by congruence. cbn [strict_eq].
    destruct (String.eqb identity k) eqn:He.
    + apply String.eqb_eq in He. congruence.
    + cbn [negb]. destruct (m0 !! k) as [v|]; [|reflexivity].
      rewrite andb_true_r. reflexivity.
Qed.

(** The scenario of the specification: the active session is linked to
    Facebook, Google (empty token) and Twitter, and connects Facebook. *)
Lemma connect_update_scoped_witness :
  exists m payload rest,
    sent (snd (connect T_created 1 "facebook" (VStr "new-token") ∅
                 active_linked))
    = update_request "kid" payload (<["_identity" := VStr "facebook"]> ∅)
      :: rest /\
    get payload socialIdentityAttribute = VObj m /\
    m !! "facebook" = Some (VStr "new-token") /\
    m !! "google" = Some (VStr "") /\
    m !! "twitter" = None.
Proof.
  destruct (connect_update_scoped T_created 0 "facebook" (VStr "new-token")
              ∅ active_linked ltac:(discriminate) eq_refl)
    as (m & payload & rest & H1 & H2 & _ & H4 & H5).
  exists m, payload, rest.
  split; [exact H1|]. split; [exact H2|]. split; [exact H4|].
  split; [exact (H5 "google" ltac:(discriminate))
         |exact (H5 "twitter" ltac:(discriminate))].
Defined.

(** ** disconnect *)

(** C8.  For a session whose [_socialIdentity] is an object or absent,
    [disconnect] deletes exactly the provider's entry from the session's
    data, leaving every other entry and attribute as it was, and then
    throws a [TypeError] at [.then0] (line 640).  It is never fulfilled:
    no update is sent, also when the session has an id, and the
    active-social-identity pointer is neither read nor cleared, also when
    it names the provider. *)
Theorem disconnect_throws_after_removal (T : Transport) (identity : string)
    (o : obj) (s : State) (m0 : obj) :
  js_or (get (this_data s) socialIdentityAttribute) (VObj ∅) = VObj m0 ->
  exists s' m,
    disconnect T identity o s = (Err TypeError, s') /\
    get (this_data s') socialIdentityAttribute = VObj m /\
    m !! identity = None /\
    (forall k, k <> identity -> m !! k = m0 !! k) /\
    (forall k, k <> socialIdentityAttribute ->
               this_data s' !! k = this_data s !! k) /\
    sent s' = sent s /\
    client s' = client s /\
    calls s' = calls s ++ [CDisconnect].
Proof.
  intros Hm. rewrite disconnect_eq, Hm. cbn [delete_prop].
  eexists. exists (delete identity m0). split; [reflexivity|].
  cbn [with_data entered this_data sent client calls].
  split; [apply get_insert_eq|]. split; [apply lookup_delete_eq|].
  split; [intros k Hk; apply lookup_delete_ne; congruence|].
  split; [intros k Hk; apply lookup_insert_ne; congruence|].
  repeat split.
Qed.

(** The failing inputs: a session without id linked to Facebook, and the
    active session linked to three providers, each on a client whose
    pointer names Facebook. *)
Lemma disconnect_throws_after_removal_witness :
  (exists s',
     disconnect T_created "facebook" ∅ pointed_local = (Err TypeError, s') /\
     get (this_data s') socialIdentityAttribute = VObj ∅ /\
     sent s' = [] /\
     activeSocialIdentity (client s') = facebook_pointer) /\
  (exists s' m,
     disconnect T_created "facebook" ∅ pointed_linked = (Err TypeError, s') /\
     get (this_data s') socialIdentityAttribute = VObj m /\
     m !! "facebook" = None /\
     m !! "twitter" = Some (VStr "tw-token") /\
     sent s' = [] /\
     activeSocialIdentity (client s') = facebook_pointer).
Proof.
  split.
  - destruct (disconnect_throws_after_removal T_created "facebook" ∅
                pointed_local (<["facebook" := VStr "old-token"]> ∅)
                ltac:(reflexivity))
      as (s' & m & H1 & H2 & H3 & H4 & _ & H6 & H7 & _).
    exists s'. split; [exact H1|]. split.
    + rewrite H2. f_equal. apply map_eq. intros k.
      rewrite lookup_empty. destruct (decide (k = "facebook")) as [->|Hk].
      * exact H3.
      * rewrite (H4 k Hk). rewrite lookup_insert_ne by congruence.
        apply lookup_empty.
    + split; [exact H6|]. rewrite H7. reflexivity.
  - destruct (disconnect_throws_after_removal T_created "facebook" ∅
                pointed_linked linked_identities ltac:(reflexivity))
      as (s' & m & H1 & H2 & H3 & H4 & _ & H6 & H7 & _).
    exists s', m. split; [exact H1|]. split; [exact H2|].
    split; [exact H3|]. split.
    + rewrite (H4 "twitter") by discriminate. reflexivity.
    + split; [exact H6|]. rewrite H7. reflexivity.
Defined.

(** ** Failure of the transport *)

Lemma social_credentials (d : obj) (password : value) :
  truthy (get d socialIdentityAttribute) = true ->
  trim_credentials (credentials_object (VObj d) password) = d /\
  credentials_missing d = false.
Proof.
  intros H. unfold trim_credentials, credentials_missing.
  cbn [credentials_object].
  change socialIdentityAttribute with "_socialIdentity" in H.
  change socialIdentityAttribute with "_socialIdentity".
  rewrite H. cbn [negb]. split; [reflexivity|apply andb_false_r].
Qed.

(** The payload of the update that [connect] issues on the active session
    still holds the token just merged. *)
Lemma scoped_user_connect (d0 : obj) (m0 : obj) (identity : string)
    (token : value) (o : obj) :
  let d := <[socialIdentityAttribute := VObj (<[identity := token]> m0)]> d0 in
  exists m,
    scoped_user d (<["_identity" := VStr identity]> o)
    = Ok (<[socialIdentityAttribute := VObj m]> d) /\
    m !! identity = Some token.
Proof.
  intros d. unfold scoped_user. rewrite get_insert_eq.
  destruct (truthy (VStr identity)).
  - unfold d. rewrite get_insert_eq. cbn [truthy strip_value].
    eexists. split; [reflexivity|].
    rewrite strip_loop_lookup, lookup_insert_eq. cbn [strict_eq].
    rewrite String.eqb_refl, andb_false_r. reflexivity.
  - exists (<[identity := token]> m0). split.
    + unfold d. rewrite insert_insert_eq. reflexivity.
    + apply lookup_insert_eq.
Qed.

Lemma after_attempt_rethrows identity o e s :
  is_NotFoundError e = false ->
  after_attempt identity o (Err e, s) = (Err e, s).
Proof. intros H. cbn [after_attempt]. rewrite H. reflexivity. Qed.

Lemma not_found_false (e : error) :
  e <> NotFoundError -> is_NotFoundError e = false.
Proof. destruct e; intros H; try reflexivity. destruct (H eq_refl). Qed.





(** ** connect: a missing record *)

Lemma append_nonempty_neq (a b : string) : b <> "" -> a +:+ b <> a.
Proof.
  intros Hb. induction a as [|c a IH]; cbn.
  - exact Hb.
  - intros H. injection H as H. exact (IH H).
Qed.

Lemma login_is_not_signup key d o :
  is_signup_request key (login_request key d o) = false.
Proof.
  unfold is_signup_request, login_request, _pathname. cbn [method pathname].
  apply String.eqb_neq, append_nonempty_neq. discriminate.
Qed.

Lemma count_signups_app key l1 l2 :
  count_signups key (l1 ++ l2) = count_signups key l1 + count_signups key l2.
Proof. unfold count_signups. rewrite List.filter_app. apply length_app. Qed.

Lemma count_signups_puts key l :
  Forall (fun q => method q = PUT) l -> count_signups key l = 0.
Proof.
  unfold count_signups. induction 1 as [|q l Hq _ IH]; [reflexivity|].
  cbn [List.filter]. unfold is_signup_request at 1. rewrite Hq. exact IH.
Qed.

(** One level of [connect] is all there is: the call of [connect] inside
    the handler given to [.then0] never runs. *)
Lemma connect_one_level (T : Transport) f identity token o s :
  connect T (S f) identity token o s = connect T 1 identity token o s.
Proof. rewrite !connect_eq. reflexivity. Qed.

(** C2.  Let [connect] run on a context without active session, so that it
    attempts a [login] with the merged data.  When that login is answered
    with [NotFoundError], the handler enters [signup], which throws a
    [TypeError] at [.then0] (line 697): [connect] is rejected with that
    [TypeError], no signup request is sent and [connect] is not called
    again.  When the login is answered with any other error, that error is
    handed on unchanged and [signup] is not entered. *)
Theorem connect_recovery_throws (T : Transport) (f : nat)
    (identity : string) (token : value) (o : obj) (s : State) (m0 : obj) :
  js_or (get (this_data s) socialIdentityAttribute) (VObj ∅) = VObj m0 ->
  activeUserData (client s) = None ->
  let key := appKey (client s) in
  let d := <[socialIdentityAttribute := VObj (<[identity := token]> m0)]>
             (this_data s) in
  let login_req := login_request key d o in
  (T (sent s) login_req = Failure NotFoundError ->
   exists s',
     connect T (S f) identity token o s = (Err TypeError, s') /\
     sent s' = sent s ++ [login_req] /\
     count_signups key (sent s') = count_signups key (sent s) /\
     calls s' = calls s ++ [CConnect; CLogin; CSignup] /\
     count_connects (calls s') = count_connects (calls s) + 1 /\
     client s' = client s /\
     this_data s' = d) /\
  (forall e, e <> NotFoundError ->
   T (sent s) login_req = Failure e ->
   exists s',
     connect T (S f) identity token o s = (Err e, s') /\
     sent s' = sent s ++ [login_req] /\
     calls s' = calls s ++ [CConnect; CLogin] /\
     client s' = client s).
Proof.
  intros Hm Hnone key d login_req.
  assert (Hattempt : forall reply,
    T (sent s) login_req = Failure reply ->
    connect T (S f) identity token o s =
    after_attempt identity o
      (Err reply,
       sending login_req (entered CLogin (with_data d (entered CConnect s))))).
  { intros reply HT. rewrite connect_eq, Hm. cbn [set_prop]. cbn zeta.
    fold d. unfold is_active at 1 2. cbn [with_data entered client].
    rewrite Hnone. rewrite login_eq. cbn zeta. unfold is_active.
    cbn [with_data entered client sent]. rewrite Hnone.
    destruct (social_credentials d VNull) as [Htrim Hcred].
    { unfold d. rewrite get_insert_eq. reflexivity. }
    rewrite Htrim, Hcred. fold key. fold login_req. rewrite HT.
    reflexivity. }
  split.
  - intros HT. rewrite (Hattempt NotFoundError HT).
    cbn [after_attempt is_NotFoundError].
    eexists. split; [reflexivity|].
    cbn [with_data sending entered sent calls client this_data].
    split; [reflexivity|]. split.
    { rewrite count_signups_app. unfold count_signups at 2.
      cbn [List.filter]. unfold login_req. rewrite login_is_not_signup.
      cbn [length]. lia. }
    split; [rewrite <- !app_assoc; reflexivity|]. split.
    { unfold count_connects. rewrite <- !app_assoc, List.filter_app, length_app.
      reflexivity. }
    split; reflexivity.
  - intros e He HT. rewrite (Hattempt e HT).
    rewrite after_attempt_rethrows by (apply not_found_false, He).
    eexists. split; [reflexivity|].
    cbn [with_data sending entered sent calls client].
    rewrite <- !app_assoc. repeat split.
Qed.

(** The failing input: [connect] on a new session of a fresh context, the
    transport not finding the user at the first request. *)
Lemma connect_recovery_throws_witness :
  exists s',
    connect T_missing_once 2 "facebook" (VStr "new-token") ∅ anonymous
    = (Err TypeError, s') /\
    count_signups "kid" (sent s') = 0 /\
    calls s' = [CConnect; CLogin; CSignup] /\
    count_connects (calls s') = 1.
Proof.
  destruct (connect_recovery_throws T_missing_once 1 "facebook"
              (VStr "new-token") ∅ anonymous ∅
              ltac:(reflexivity) ltac:(reflexivity)) as [H _].
  destruct (H ltac:(reflexivity)) as (s' & H1 & _ & H3 & H4 & H5 & _).
  exists s'. split; [exact H1|]. split; [exact H3|].
  split; [exact H4|exact H5].
Defined.
(** * Further properties of the User class *)

(** ** A fulfilled login *)

(** X1.  On a context without active session, a login whose credentials are
    not lacking and whose request is answered with a record is fulfilled
    with a new user wrapping that record; the record becomes the session's
    data and the stored active record, one request was sent, and
    [isActive] answers true afterwards unless the record's id is an
    object. *)
Theorem login_activates (T : Transport) (u p : value) (o : obj) (s : State)
    (d : obj) :
  let c := credentials_object u p in
  let request := login_request (appKey (client s)) (transmitted c) o in
  activeUserData (client s) = None ->
  lacks_credentials c = false ->
  T (sent s) request = Response d ->
  exists s',
    login T u p o s = (Ok (RetUser d), s') /\
    this_data s' = d /\
    activeUserData (client s') = Some d /\
    sent s' = sent s ++ [request] /\
    ((forall m, get d idAttribute <> VObj m) -> isActive s' = (Ok true, s')).
Proof.
  intros c request Hnone Hl HT.
  rewrite (login_response T u p o s d Hnone Hl HT).
  eexists. split; [reflexivity|]. repeat split.
  intros Hid. rewrite isActive_eq. unfold is_active.
  cbn [with_active with_data client this_data activeUserData].
  rewrite strict_eq_refl_scalar by exact Hid. reflexivity.
Qed.

Lemma login_activates_witness :
  exists s',
    login T_created (VStr " bob ") (VStr " pw ") ∅ anonymous
    = (Ok (RetUser record_u1), s') /\
    this_data s' = record_u1 /\
    activeUserData (client s') = Some record_u1 /\
    isActive s' = (Ok true, s').
Proof.
  destruct (login_activates T_created (VStr " bob ") (VStr " pw ") ∅
              anonymous record_u1 eq_refl eq_refl eq_refl)
    as (s' & H1 & H2 & H3 & _ & H5).
  exists s'. repeat split; try assumption.
  apply H5. intros m. discriminate.
Defined.

(** X2.  Login followed by logout, from a context without active session,
    the login being fulfilled with a record.  When the record's id is not
    an object, the logout leaves the context without active session again,
    whatever the transport answers to the logout request; the log holds the
    login and the logout request, and the session keeps the record of the
    login.  When the record's id is an object, the session does not count
    as active after the login: the logout hands back [null], nothing more
    is sent, and the record stays stored as the active one. *)
Theorem login_then_logout (T : Transport) (u p : value) (o o' : obj)
    (s : State) (d : obj) :
  let c := credentials_object u p in
  let request := login_request (appKey (client s)) (transmitted c) o in
  activeUserData (client s) = None ->
  lacks_credentials c = false ->
  T (sent s) request = Response d ->
  exists s1 s2 r,
    login T u p o s = (Ok (RetUser d), s1) /\
    logout T o' s1 = (r, s2) /\
    this_data s2 = d /\
    ((forall m, get d idAttribute <> VObj m) ->
     r = Promise (Ok RetThis) /\
     activeUserData (client s2) = None /\
     sent s2 = sent s ++ [request; logout_request (appKey (client s)) o']) /\
    (forall m, get d idAttribute = VObj m ->
     r = Immediate RetNull /\
     activeUserData (client s2) = Some d /\
     sent s2 = sent s ++ [request]).
Proof.
  intros c request Hnone Hl HT.
  rewrite (login_response T u p o s d Hnone Hl HT).
  fold c. fold request.
  set (s1 := with_active (Some d) _).
  exists s1. rewrite logout_eq. cbn zeta.
  assert (Ha : is_active s1
               = strict_eq (get d idAttribute) (get d idAttribute))
    by reflexivity.
  rewrite Ha.
  destruct (strict_eq (get d idAttribute) (get d idAttribute)) eqn:Hid.
  - eexists. eexists. split; [reflexivity|]. split; [reflexivity|].
    split; [reflexivity|]. split.
    + intros _. split; [reflexivity|]. split; [reflexivity|].
      cbn [s1 with_active with_data sending entered sent client appKey].
      rewrite <- app_assoc. reflexivity.
    + intros m Hm. rewrite Hm in Hid. discriminate Hid.
  - eexists. eexists. split; [reflexivity|]. split; [reflexivity|].
    split; [reflexivity|]. split.
    + intros Hm. rewrite strict_eq_refl_scalar in Hid by exact Hm.
      discriminate Hid.
    + intros m _. repeat split.
Qed.

Lemma login_then_logout_witness :
  exists s1 s2,
    login T_created (VStr "bob") (VStr "pw") ∅ anonymous
    = (Ok (RetUser record_u1), s1) /\
    logout T_created ∅ s1 = (Promise (Ok RetThis), s2) /\
    activeUserData (client s2) = None /\
    this_data s2 = record_u1.
Proof.
  destruct (login_then_logout T_created (VStr "bob") (VStr "pw") ∅ ∅
              anonymous record_u1 eq_refl eq_refl eq_refl)
    as (s1 & s2 & r & H1 & H2 & H3 & H4 & _).
  destruct (H4 ltac:(intros m; discriminate)) as (-> & H5 & _).
  exists s1, s2. repeat split; assumption.
Defined.

(** ** The stored active record follows the session's data *)

Lemma connect_finish_in_step identity o s r s' :
  connect_finish identity o s = (r, s') -> in_step s -> in_step s'.
Proof.
  rewrite connect_finish_eq.
  destruct (get_prop _ _); intros [= _ <-] H; exact H.
Qed.

Lemma login_in_step (T : Transport) u p o s r s' :
  login T u p o s = (Ok r, s') -> in_step s'.
Proof.
  rewrite login_eq. cbn zeta.
  destruct (is_active s); [discriminate|].
  destruct (activeUserData (client s)); [discriminate|].
  destruct (credentials_missing _); [discriminate|].
  destruct (T _ _); [|discriminate].
  intros [= _ <-] _. reflexivity.
Qed.

Lemma update_in_step (T : Transport) d o s r s' :
  update T d o s = (Ok r, s') -> in_step s'.
Proof.
  rewrite update_eq. cbn zeta.
  destruct (negb _); [discriminate|].
  destruct (scoped_user d o) as [u|e|]; [|discriminate..].
  destruct (T _ _) as [x|e]; [|discriminate].
  destruct (is_active (with_data x _)) eqn:Ha; intros [= _ <-].
  - intros _. reflexivity.
  - intros H. rewrite Ha in H. discriminate.
Qed.

(** X3.  Whenever [login], [me], [update] or [connect] is fulfilled, the
    session reached is in step with the store: if it is the active
    session, the stored active record is its data. *)
Theorem fulfilled_operations_in_step (T : Transport) :
  (forall u p o s r s', login T u p o s = (Ok r, s') -> in_step s') /\
  (forall o s r s', me T o s = (Ok r, s') -> in_step s') /\
  (forall d o s r s', update T d o s = (Ok r, s') -> in_step s') /\
  (forall fuel identity token o s r s',
     connect T fuel identity token o s = (Ok r, s') -> in_step s').
Proof.
  split; [apply login_in_step|]. split; [|split].
  - intros o s r s'. rewrite me_eq. cbn zeta.
    destruct (T _ _); [|discriminate]. intros [= _ <-] _. reflexivity.
  - apply update_in_step.
  - intros [|f] identity token o s r s'; [discriminate|].
    rewrite connect_eq.
    destruct (set_prop _ _ _) as [si|e|]; [|discriminate..].
    cbn zeta.
    set (d := <[socialIdentityAttribute := si]> (this_data s)).
    set (s2 := with_data d (entered CConnect s)).
    set (o' := if is_active s2 then _ else o).
    set (attempt := if is_active s2 then update T d o' s2
                    else login T (VObj d) VNull o' s2).
    assert (Hatt : forall x s3, attempt = (Ok x, s3) -> in_step s3).
    { unfold attempt. destruct (is_active s2); intros x s3 H;
        [eapply update_in_step|eapply login_in_step]; exact H. }
    destruct attempt as [[x|e|] s3]; cbn [after_attempt]; [| |discriminate].
    + intros H. eapply connect_finish_in_step; [exact H|].
      eapply Hatt. reflexivity.
    + destruct (is_NotFoundError e); discriminate.
Qed.

(** The update of the active session [active_u1] stores the record the
    transport answers, and so does a [connect] by way of a login. *)
Lemma fulfilled_operations_in_step_witness :
  (exists s', update T_created record_u1 ∅ active_u1
              = (Ok (RetUser record_u1), s')
              /\ in_step s'
              /\ activeUserData (client s') = Some (this_data s')) /\
  (exists s', connect T_linked 1 "facebook" (VStr "new-token") ∅ anonymous
              = (Ok RetThis, s')
              /\ in_step s'
              /\ activeUserData (client s') = Some (this_data s')).
Proof.
  destruct (fulfilled_operations_in_step T_created) as (_ & _ & Hu & _).
  destruct (fulfilled_operations_in_step T_linked) as (_ & _ & _ & Hc).
  split.
  - exists (snd (update T_created record_u1 ∅ active_u1)).
    assert (E : update T_created record_u1 ∅ active_u1
                = (Ok (RetUser record_u1),
                   snd (update T_created record_u1 ∅ active_u1)))
      by (vm_compute; reflexivity).
    split; [exact E|]. split; [exact (Hu _ _ _ _ _ E)|].
    apply (Hu _ _ _ _ _ E). vm_compute. reflexivity.
  - exists (snd (connect T_linked 1 "facebook" (VStr "new-token") ∅
                   anonymous)).
    assert (E : connect T_linked 1 "facebook" (VStr "new-token") ∅ anonymous
                = (Ok RetThis,
                   snd (connect T_linked 1 "facebook" (VStr "new-token") ∅
                          anonymous)))
      by (vm_compute; reflexivity).
    split; [exact E|]. split; [exact (Hc _ _ _ _ _ _ _ E)|].
    apply (Hc _ _ _ _ _ _ _ E). vm_compute. reflexivity.
Defined.

(** ** The pointer recorded by connect *)





(** ** connect on the active session when the record is missing *)

(** X5.  On the active session, an update that is answered with
    [NotFoundError] does not hand that error on: the handler enters
    [signup], which throws at [.then0], and [connect] is rejected with the
    [TypeError].  Only the update was sent, [connect] was entered once, and
    the client's stores are untouched. *)
Theorem connect_active_missing_record (T : Transport) (fuel : nat)
    (identity : string) (token : value) (o : obj) (s : State) (m0 : obj) :
  isActive s = (Ok true, s) ->
  truthy (get (this_data s) idAttribute) = true ->
  js_or (get (this_data s) socialIdentityAttribute) (VObj ∅) = VObj m0 ->
  (forall r, T (sent s) r = Failure NotFoundError) ->
  exists s' payload,
    connect T (S fuel) identity token o s = (Err TypeError, s') /\
    sent s' = sent s
              ++ [update_request (appKey (client s)) payload
                    (<["_identity" := VStr identity]> o)] /\
    count_signups (appKey (client s)) (sent s')
    = count_signups (appKey (client s)) (sent s) /\
    client s' = client s /\
    calls s' = calls s ++ [CConnect; CUpdate; CSignup].
Proof.
  intros Hact Hid Hm HT. rewrite isActive_eq in Hact.
  injection Hact as Hact.
  rewrite connect_eq, Hm. cbn [set_prop]. cbn zeta.
  rewrite is_active_merge, Hact.
  rewrite update_eq. cbn zeta.
  rewrite get_insert_ne by discriminate. rewrite Hid. cbn [negb].
  destruct (scoped_user_connect (this_data s) m0 identity token o)
    as (m & Hsc & _).
  rewrite Hsc. cbn [with_data entered sent client]. rewrite HT.
  cbn [after_attempt is_NotFoundError].
  eexists. eexists. split; [reflexivity|].
  cbn [with_data sending entered sent client calls].
  split; [reflexivity|]. split.
  - rewrite count_signups_app.
    rewrite (count_signups_puts _ [_]); [lia|].
    repeat constructor.
  - split; [reflexivity|]. rewrite <- !app_assoc. reflexivity.
Qed.

Lemma connect_active_missing_record_witness :
  exists s',
    connect (fun _ _ => Failure NotFoundError) 1 "facebook"
            (VStr "new-token") ∅ active_linked
    = (Err TypeError, s') /\
    count_signups "kid" (sent s') = 0 /\
    client s' = client active_linked.
Proof.
  destruct (connect_active_missing_record (fun _ _ => Failure NotFoundError)
              0 "facebook" (VStr "new-token") ∅ active_linked
              linked_identities
              eq_refl eq_refl ltac:(reflexivity) (fun _ => eq_refl))
    as (s' & payload & H1 & _ & H3 & H4 & _).
  exists s'. split; [exact H1|]. split; [exact H3|exact H4].
Defined.

(** ** signup with an identity *)

(** X6.  [signupWithIdentity] ends where [signup] ends, in the [TypeError]
    of [.then0]: whatever the identity, the tokens and the options, also
    options that ask not to promote, nothing is sent, and the tokens reach
    neither the session's data nor the client. *)
Theorem signupWithIdentity_throws (T : Transport) (identity : string)
    (tokens : value) (o : obj) (s : State) :
  exists s',
    signupWithIdentity T identity tokens o s = (Err TypeError, s') /\
    signupWithIdentity T identity tokens o s
    = signup T (<["_socialIdentity" := VObj (<[identity := tokens]> ∅)]> ∅)
             o s /\
    sent s' = sent s /\
    this_data s' = this_data s /\
    client s' = client s /\
    calls s' = calls s ++ [CSignup].
Proof.
  unfold signupWithIdentity. rewrite signup_eq.
  eexists. repeat split.
Qed.

(** ** loginWithIdentity *)

(** X7.  [loginWithIdentity] does not depend on its [options]: they reach
    [login] as the password, which an object payload does not read.  On a
    context without active session it always sends one login request,
    whatever the token is; the payload is the one-entry identity map and
    the request carries neither [properties] nor [timeout]. *)
Theorem loginWithIdentity_ignores_options (T : Transport)
    (identity : string) (token : value) (s : State) :
  let payload :=
    <["_socialIdentity" := VObj (<[identity := token]> ∅)]> (∅ : obj) in
  let request := login_request (appKey (client s)) payload ∅ in
  (forall options options',
     loginWithIdentity T identity token options s
     = loginWithIdentity T identity token options' s) /\
  (activeUserData (client s) = None ->
   forall options,
     sent (snd (loginWithIdentity T identity token options s))
     = sent s ++ [request]) /\
  properties request = VUndefined /\ timeout request = VUndefined.
Proof.
  intros payload request.
  assert (Hs : truthy (get payload socialIdentityAttribute) = true).
  { unfold payload. change socialIdentityAttribute with "_socialIdentity".
    rewrite get_insert_eq. reflexivity. }
  split; [|split].
  - intros options options'. unfold loginWithIdentity.
    rewrite !login_eq. reflexivity.
  - intros Hnone options. unfold loginWithIdentity. rewrite login_sent.
    cbn zeta. rewrite Hnone. cbn [credentials_object]. fold payload.
    unfold lacks_credentials, transmitted. rewrite Hs.
    rewrite andb_false_r. reflexivity.
  - split; reflexivity.
Qed.

Lemma loginWithIdentity_ignores_options_witness :
  sent (snd (loginWithIdentity T_created "facebook" VUndefined
               (<["timeout" := VNum 10]> ∅) anonymous))
  = [login_request "kid"
       (<["_socialIdentity" := VObj (<["facebook" := VUndefined]> ∅)]> ∅) ∅].
Proof.
  destruct (loginWithIdentity_ignores_options T_created "facebook" VUndefined
              anonymous) as (_ & H & _).
  exact (H eq_refl (<["timeout" := VNum 10]> ∅)).
Defined.

(** ** refreshAuthToken *)

(** X8.  [refreshAuthToken] on a session whose data has no
    [_socialIdentity] throws; on a session whose active identity is not the
    one wired to the refresh routine it is rejected with a [KinveyError]
    naming that identity.  In both cases nothing is sent and neither the
    session nor the client changes, whatever the refresh routine would
    do. *)
Theorem refreshAuthToken_unsupported (T : Transport) (mic_identity : string)
    (mic_refresh : value -> obj -> M value) (fuel : nat) (o : obj)
    (s : State) :
  (truthy (get (this_data s) socialIdentityAttribute) = false ->
   get (this_data s) socialIdentityAttribute = VUndefined \/
   get (this_data s) socialIdentityAttribute = VNull ->
   refreshAuthToken T mic_identity mic_refresh fuel o s = (Err TypeError, s))
  /\
  (forall active,
     get_prop (get (this_data s) socialIdentityAttribute) "activeIdentity"
     = Ok active ->
     strict_eq active (VStr mic_identity) = false ->
     refreshAuthToken T mic_identity mic_refresh fuel o s
     = (Err (KinveyError (refresh_unsupported_message active)), s)).
Proof.
  unfold refreshAuthToken, then_, get_this_data, lift. split.
  - intros _ [H|H]; rewrite H; reflexivity.
  - intros active Hg Hne. rewrite Hg.
    destruct (get (this_data s) socialIdentityAttribute);
      cbn in Hg |- *; try discriminate; rewrite Hne; reflexivity.
Qed.

Lemma refreshAuthToken_unsupported_witness :
  refreshAuthToken T_created "kinveyAuth" (fun t _ => resolve t) 3 ∅ anonymous
  = (Err TypeError, anonymous) /\
  refreshAuthToken T_created "kinveyAuth" (fun t _ => resolve t) 3 ∅
                   active_linked
  = (Err (KinveyError (refresh_unsupported_message VUndefined)), active_linked).
Proof.
  destruct (refreshAuthToken_unsupported T_created "kinveyAuth"
              (fun t _ => resolve t) 3 ∅ anonymous) as [H _].
  destruct (refreshAuthToken_unsupported T_created "kinveyAuth"
              (fun t _ => resolve t) 3 ∅ active_linked) as [_ H'].
  split.
  - apply H; [reflexivity|left; reflexivity].
  - apply (H' VUndefined); reflexivity.
Defined.

(** ** connectWithIdentity *)

(** X9.  [connectWithIdentity] throws a [TypeError] at [.then0] (line
    532), whatever the identity, the options, the [hello] bridge and the
    transport.  The [KinveyError]s of its guards never reach the caller,
    the lookup request is never sent, [connect] is never entered, and
    neither the session nor the client changes. *)
Theorem connectWithIdentity_throws (T : Transport) (hello : bool)
    (hello_login : string -> value -> res unit)
    (hello_getAuthResponse : string -> value) (fuel : nat)
    (identity : string) (o : obj) (s : State) :
  connectWithIdentity T hello hello_login hello_getAuthResponse fuel
                      identity o s
  = (Err TypeError, s).
Proof. reflexivity. Qed.

(** X10.  [isIdentitySupported] answers true exactly where the [hello]
    bridge is loaded and the identity is one of [facebook], [google] and
    [linkedIn], spelt that way. *)
Theorem isIdentitySupported_exact (hello : bool) (identity : string) :
  isIdentitySupported hello identity = true <->
  hello = true /\
  (identity = "facebook" \/ identity = "google" \/ identity = "linkedIn").
Proof.
  unfold isIdentitySupported, supportedIdentities. cbn [existsb].
  rewrite andb_true_iff, !orb_true_iff, !String.eqb_eq.
  intuition discriminate.
Qed.

(** * UserStore *)

Lemma strip_loop_idempotent (_identity : value) (m : obj) :
  strip_loop _identity (strip_loop _identity m) = strip_loop _identity m.
Proof.
  apply map_eq. intros k. rewrite !strip_loop_lookup.
  destruct (m !! k) as [v|]; [|reflexivity].
  destruct (truthy v && negb (strict_eq _identity (VStr k))) eqn:Hc;
    [reflexivity|]. rewrite Hc. reflexivity.
Qed.

Lemma strip_loop_subseteq (_identity : value) (m : obj) :
  strip_loop _identity m ⊆ m.
Proof.
  apply map_subseteq_spec. intros k v. rewrite strip_loop_lookup.
  destruct (m !! k) as [w|]; [|discriminate].
  destruct (_ && _); [discriminate|]. intros H. exact H.
Qed.

(** X11.  The scoping of [UserStore.save] only removes identities: when it
    succeeds, every attribute of the user other than [_socialIdentity] is
    as before, the identities left are a sub-map of the user's, and scoping
    the outcome again changes nothing. *)
Theorem scoped_user_only_removes (user options u : obj) :
  scoped_user user options = Ok u ->
  scoped_user u options = Ok u /\
  (forall k, k <> socialIdentityAttribute -> u !! k = user !! k) /\
  (forall m, get user socialIdentityAttribute = VObj m ->
     exists m', get u socialIdentityAttribute = VObj m' /\ m' ⊆ m).
Proof.
  intros H. unfold scoped_user in H.
  assert (Hsame : scoped_user user options = Ok user ->
            scoped_user user options = Ok user /\
            (forall k, k <> socialIdentityAttribute -> user !! k = user !! k) /\
            (forall m, get user socialIdentityAttribute = VObj m ->
               exists m', get user socialIdentityAttribute = VObj m' /\ m' ⊆ m)).
  { intros E. split; [exact E|]. split; [reflexivity|].
    intros m Hm. exists m. split; [exact Hm|reflexivity]. }
  destruct (truthy (get options "_identity")) eqn:Hflag.
  2: { injection H as <-. apply Hsame. unfold scoped_user.
       rewrite Hflag. reflexivity. }
  destruct (truthy (get user socialIdentityAttribute)) eqn:Hsi.
  2: { injection H as <-. apply Hsame. unfold scoped_user.
       rewrite Hflag, Hsi. reflexivity. }
  assert (Hother : forall v k, k <> socialIdentityAttribute ->
            (<[socialIdentityAttribute := v]> user) !! k = user !! k).
  { intros v k Hk. apply lookup_insert_ne. congruence. }
  destruct (get user socialIdentityAttribute) as [| |b|n|x|m0] eqn:Hget;
    cbn [strip_value] in H; try discriminate.
  - injection H as <-. unfold scoped_user.
    rewrite Hflag, get_insert_eq, Hsi. cbn [strip_value].
    rewrite insert_insert_eq. split; [reflexivity|].
    split; [apply Hother|]. intros m. discriminate.
  - injection H as <-. unfold scoped_user.
    rewrite Hflag, get_insert_eq, Hsi. cbn [strip_value].
    rewrite insert_insert_eq. split; [reflexivity|].
    split; [apply Hother|]. intros m. discriminate.
  - destruct (forallb _ _) eqn:Hall; [|discriminate].
    injection H as <-. unfold scoped_user.
    rewrite Hflag, get_insert_eq, Hsi. cbn [strip_value].
    rewrite Hall, insert_insert_eq. split; [reflexivity|].
    split; [apply Hother|]. intros m. discriminate.
  - injection H as <-. unfold scoped_user.
    rewrite Hflag, get_insert_eq. cbn [truthy strip_value].
    rewrite strip_loop_idempotent, insert_insert_eq.
    split; [reflexivity|]. split; [apply Hother|].
    intros m [= <-]. eexists. split; [reflexivity|].
    apply strip_loop_subseteq.
Qed.

Lemma scoped_user_only_removes_witness :
  exists u m',
    scoped_user record_linked (<["_identity" := VStr "facebook"]> ∅) = Ok u /\
    scoped_user u (<["_identity" := VStr "facebook"]> ∅) = Ok u /\
    get u socialIdentityAttribute = VObj m' /\
    m' !! "twitter" = None /\
    m' !! "facebook" = Some (VStr "old-token").
Proof.
  assert (E : scoped_user record_linked (<["_identity" := VStr "facebook"]> ∅)
              = Ok (<[socialIdentityAttribute :=
                        VObj (<["google" := VStr ""]>
                             (<["facebook" := VStr "old-token"]> ∅))]>
                      record_linked))
    by (vm_compute; reflexivity).
  destruct (scoped_user_only_removes _ _ _ E) as (H1 & _ & _).
  eexists. eexists. split; [exact E|]. split; [exact H1|].
  split; [apply get_insert_eq|]. split; reflexivity.
Defined.

(** X12.  [UserStore.exists] called without options throws while it builds
    its request: nothing is sent.  Called with an options object it sends
    one request carrying the username, and a reply is answered with its
    [usernameExists]. *)
Theorem exists_needs_options (T : Transport) (username options : value)
    (s : State) :
  (options = VUndefined \/ options = VNull ->
   UserStore_exists T username options s = (Err TypeError, s)) /\
  (forall o, options = VObj o ->
     let request := exists_request (appKey (client s)) username
                      (get o "properties") (get o "timeout") in
     UserStore_exists T username options s =
     match T (sent s) request with
     | Response found => (Ok (get found "usernameExists"), sending request s)
     | Failure e => (Err e, sending request s)
     end).
Proof.
  split.
  - intros [-> | ->]; reflexivity.
  - intros o -> request.
    unfold UserStore_exists, then_, get_appKey, lift, execute.
    cbn [get_prop]. fold request.
    destruct (T (sent s) request); reflexivity.
Qed.

Lemma exists_needs_options_witness :
  UserStore_exists T_created (VStr "bob") VUndefined anonymous
  = (Err TypeError, anonymous) /\
  fst (UserStore_exists T_created (VStr "bob") (VObj ∅) anonymous)
  = Ok VUndefined.
Proof.
  destruct (exists_needs_options T_created (VStr "bob") VUndefined anonymous)
    as [H _].
  destruct (exists_needs_options T_created (VStr "bob") (VObj ∅) anonymous)
    as [_ H'].
  split; [apply H; left; reflexivity|].
  rewrite (H' ∅ eq_refl). reflexivity.
Defined.

(** * Command.execute *)

(** X13.  [Command.execute] throws before anything is sent in three cases:
    a falsy command (the empty string included) is reported as missing, a
    truthy command that is no string as not a string, and a string command
    whose options carry no [client] makes the read of
    [options.client.appKey] throw; this last case is what the default
    options give. *)
Theorem command_guards (T : Transport) (command : value) (args : option obj)
    (options : obj) (s : State) :
  (truthy command = false ->
   Command.execute T command args options s
   = (Err (KinveyError Command.required_message), s)) /\
  (truthy command = true -> Command.isString command = false ->
   Command.execute T command args options s
   = (Err (KinveyError Command.not_string_message), s)) /\
  (truthy command = true -> Command.isString command = true ->
   options !! "client" = None \/ options !! "client" = Some VUndefined \/
   options !! "client" = Some VNull ->
   Command.execute T command args options s = (Err TypeError, s)).
Proof.
  unfold Command.execute. split; [|split].
  - intros ->. reflexivity.
  - intros -> ->. reflexivity.
  - intros -> -> Hc. cbn [negb].
    assert (Hg : get_prop (get (Command.command_options options) "client")
                          "appKey" = Err TypeError).
    { unfold Command.command_options, get. rewrite lookup_union.
      rewrite !lookup_insert_ne by discriminate. rewrite lookup_empty.
      destruct Hc as [-> | [-> | ->]]; reflexivity. }
    unfold then_ at 1, lift. rewrite Hg. reflexivity.
Qed.

Lemma command_guards_witness :
  Command.execute T_created (VStr "") None ∅ anonymous
  = (Err (KinveyError Command.required_message), anonymous) /\
  Command.execute T_created (VNum 7) None ∅ anonymous
  = (Err (KinveyError Command.not_string_message), anonymous) /\
  Command.execute T_created (VStr "sum") None ∅ anonymous
  = (Err TypeError, anonymous).
Proof.
  split; [|split].
  - apply (command_guards T_created (VStr "") None ∅ anonymous). reflexivity.
  - apply (command_guards T_created (VNum 7) None ∅ anonymous); reflexivity.
  - apply (command_guards T_created (VStr "sum") None ∅ anonymous);
      [reflexivity..|]. left. reflexivity.
Defined.

(** X14.  With a string command and options whose [client] is an object,
    [Command.execute] sends exactly one POST to
    [/rpc/<appKey>/custom/<command>], where the app key is the one of
    [options.client] (not of the shared client), with the arguments as
    body and [properties] defaulting to [null]; its outcome is the
    transport's. *)
Theorem command_request_sent (T : Transport) (name : string)
    (args : option obj) (options c : obj) (s : State) :
  name <> "" ->
  options !! "client" = Some (VObj c) ->
  let request :=
    Command.command_request (get c "appKey") (VStr name) args
                            (Command.command_options options) in
  pathname request
  = "/rpc/" +:+ to_String (get c "appKey") +:+ "/custom/" +:+ name /\
  (options !! "properties" = None -> properties request = VNull) /\
  Command.execute T (VStr name) args options s =
  match T (sent s) request with
  | Response d => (Ok d, sending request s)
  | Failure e => (Err e, sending request s)
  end.
Proof.
  intros Hname Hc request. split; [reflexivity|]. split.
  - intros Hp. unfold request, Command.command_request. cbn [properties].
    unfold Command.command_options, get.
    rewrite lookup_union, Hp, lookup_insert_eq. reflexivity.
  - unfold Command.execute. cbn [truthy Command.isString].
    destruct (String.eqb name "") eqn:He.
    { apply String.eqb_eq in He. contradiction. }
    cbn [negb].
    assert (Hg : get (Command.command_options options) "client" = VObj c).
    { unfold Command.command_options, get. rewrite lookup_union, Hc.
      rewrite !lookup_insert_ne by discriminate. rewrite lookup_empty.
      reflexivity. }
    unfold then_, lift, execute. rewrite Hg. cbn [get_prop].
    fold request. destruct (T (sent s) request); reflexivity.
Qed.

Lemma command_request_sent_witness :
  sent (snd (Command.execute T_created (VStr "sum") None
               (<["client" := VObj (<["appKey" := VStr "other"]> ∅)]> ∅)
               anonymous))
  = [{| method := POST; authType := Default;
        pathname := "/rpc/other/custom/sum"; data := None;
        properties := VNull; timeout := VUndefined |}].
Proof.
  destruct (command_request_sent T_created "sum" None
              (<["client" := VObj (<["appKey" := VStr "other"]> ∅)]> ∅)
              (<["appKey" := VStr "other"]> ∅) anonymous
              ltac:(discriminate) eq_refl) as (_ & _ & H).
  rewrite H. reflexivity.
Defined.


(** * The legacy library state *)

(** X15.  [Kinvey.setActiveUser] throws exactly for a user that is neither
    [null] nor [undefined] and lacks [_id], [_kmd] or [_kmd.authtoken], and
    then changes nothing, not even the ready flag.  Otherwise it returns
    the active user there was (also when the library was not ready), the
    library is ready, [Kinvey.getActiveUser] returns the new user, the
    storage slot holds its id and auth token or is empty for [null], and
    the credentials of the library are untouched. *)
Theorem setActiveUser_checks (user : value) (l : Kinvey.Lib) :
  (Kinvey.nonnull user = true -> Kinvey.has_credentials user = false ->
   Kinvey.setActiveUser user l = (Kinvey.Threw Kinvey.user_argument_message, l))
  /\
  (Kinvey.nonnull user = false \/ Kinvey.has_credentials user = true ->
   exists l',
     Kinvey.setActiveUser user l = (Kinvey.Returned (Kinvey.activeUser l), l')
     /\ Kinvey.getActiveUser l' = Kinvey.Returned user
     /\ Kinvey.stored l' = Kinvey.stored_for user
     /\ Kinvey.appKey l' = Kinvey.appKey l
     /\ Kinvey.appSecret l' = Kinvey.appSecret l
     /\ Kinvey.masterSecret l' = Kinvey.masterSecret l).
Proof.
  unfold Kinvey.setActiveUser. split.
  - intros -> ->. reflexivity.
  - intros H.
    assert (Hc : Kinvey.nonnull user && negb (Kinvey.has_credentials user)
                 = false).
    { destruct H as [-> | ->]; [reflexivity|apply andb_false_r]. }
    rewrite Hc. eexists. split; [reflexivity|]. repeat split.
Qed.

Lemma setActiveUser_checks_witness :
  Kinvey.setActiveUser (VObj (<["_id" := VStr "u1"]> ∅))
    (Kinvey.mkLib VNull false None VNull VNull VNull)
  = (Kinvey.Threw Kinvey.user_argument_message,
     Kinvey.mkLib VNull false None VNull VNull VNull) /\
  exists l',
    Kinvey.setActiveUser (VObj record_u1)
      (Kinvey.mkLib VNull false None VNull VNull VNull)
    = (Kinvey.Returned VNull, l') /\
    Kinvey.getActiveUser l' = Kinvey.Returned (VObj record_u1) /\
    Kinvey.stored l' = Some (VStr "u1", VStr "T1").
Proof.
  split.
  - apply (setActiveUser_checks (VObj (<["_id" := VStr "u1"]> ∅)));
      reflexivity.
  - destruct (proj2 (setActiveUser_checks (VObj record_u1)
                       (Kinvey.mkLib VNull false None VNull VNull VNull))
                (or_intror eq_refl))
      as (l' & H1 & H2 & H3 & _).
    exists l'. split; [exact H1|]. split; [exact H2|].
    rewrite H3. reflexivity.
Defined.

Lemma setActiveUser_consistent (user : value) (l : Kinvey.Lib) :
  Kinvey.consistent l -> Kinvey.consistent (snd (Kinvey.setActiveUser user l)).
Proof.
  unfold Kinvey.setActiveUser, Kinvey.consistent. intros Hl.
  destruct (Kinvey.nonnull user) eqn:Hn; cbn [andb].
  - destruct (Kinvey.has_credentials user) eqn:Hc; cbn [negb snd].
    + cbn. intros _. exact Hc.
    + exact Hl.
  - cbn. rewrite Hn. discriminate.
Qed.

Lemma setActiveUser_ready (user : value) (l : Kinvey.Lib) :
  Kinvey.activeUserReady l = true ->
  Kinvey.activeUserReady (snd (Kinvey.setActiveUser user l)) = true.
Proof.
  unfold Kinvey.setActiveUser. intros Hl.
  destruct (_ && _); [exact Hl|reflexivity].
Qed.

(** X16.  Whatever users [Kinvey.setActiveUser] is called with, in whatever
    order and whether or not the calls throw, an active user that is not
    [null] always has an id and an auth token, and a library that was ready
    stays ready. *)
Theorem active_user_always_has_credentials (users : list value)
    (l : Kinvey.Lib) :
  Kinvey.consistent l ->
  Kinvey.consistent (Kinvey.set_all users l) /\
  (Kinvey.activeUserReady l = true ->
   Kinvey.activeUserReady (Kinvey.set_all users l) = true).
Proof.
  unfold Kinvey.set_all. revert l.
  induction users as [|u users IH]; intros l Hl; cbn [fold_left].
  - split; [exact Hl|intros H; exact H].
  - destruct (IH (snd (Kinvey.setActiveUser u l))
                (setActiveUser_consistent u l Hl)) as [H1 H2].
    split; [exact H1|]. intros Hr. apply H2, setActiveUser_ready, Hr.
Qed.

Lemma active_user_always_has_credentials_witness :
  Kinvey.consistent
    (Kinvey.set_all [VObj record_u1; VNum 5; VNull; VObj ∅]
       (Kinvey.mkLib VNull false None VNull VNull VNull)).
Proof.
  apply (active_user_always_has_credentials
           [VObj record_u1; VNum 5; VNull; VObj ∅]
           (Kinvey.mkLib VNull false None VNull VNull VNull)).
  intros H. discriminate H.
Defined.

Section LegacyInit.

Variable INVALID_CREDENTIALS : string.
Variable me : Kinvey.Lib -> (value + string) * Kinvey.Lib.
Variable sync_init : value -> option string.

(** X17.  [Kinvey.init] throws, changing nothing, when the options have no
    [appKey], and when they have neither [appSecret] nor [masterSecret].
    With an [appKey] and one of the two secrets it returns a promise; when
    the synchronisation fails or nothing is stored for an active user, the
    library then holds the [appKey] and the secrets of the options, a
    missing secret as [null]. *)
Theorem init_checks_options (options : value) (l : Kinvey.Lib) :
  let o := js_or options (VObj ∅) in
  (Kinvey.nonnull (Kinvey.member o "appKey") = false ->
   Kinvey.init INVALID_CREDENTIALS me sync_init options l
   = (Kinvey.Threw Kinvey.appKey_message, l)) /\
  (Kinvey.nonnull (Kinvey.member o "appKey") = true ->
   Kinvey.nonnull (Kinvey.member o "appSecret") = false ->
   Kinvey.nonnull (Kinvey.member o "masterSecret") = false ->
   Kinvey.init INVALID_CREDENTIALS me sync_init options l
   = (Kinvey.Threw Kinvey.secret_message, l)) /\
  (Kinvey.nonnull (Kinvey.member o "appKey") = true ->
   Kinvey.nonnull (Kinvey.member o "appSecret") = true \/
   Kinvey.nonnull (Kinvey.member o "masterSecret") = true ->
   exists r l',
     Kinvey.init INVALID_CREDENTIALS me sync_init options l
     = (Kinvey.Returned r, l') /\
     (sync_init (Kinvey.member o "sync") <> None \/ Kinvey.stored l = None ->
      Kinvey.appKey l' = Kinvey.member o "appKey" /\
      Kinvey.appSecret l' = Kinvey.or_null (Kinvey.member o "appSecret") /\
      Kinvey.masterSecret l'
      = Kinvey.or_null (Kinvey.member o "masterSecret"))).
Proof.
  intros o. unfold Kinvey.init. fold o. split; [|split].
  - intros ->. reflexivity.
  - intros -> -> ->. reflexivity.
  - intros -> Hs.
    assert (Hc : negb (Kinvey.nonnull (Kinvey.member o "appSecret"))
                 && negb (Kinvey.nonnull (Kinvey.member o "masterSecret"))
                 = false).
    { destruct Hs as [-> | ->]; [reflexivity|apply andb_false_r]. }
    cbn [negb]. rewrite Hc.
    destruct (sync_init (Kinvey.member o "sync")) as [name|] eqn:Hsync.
    + eexists. eexists. split; [reflexivity|]. intros _. repeat split.
    + destruct (Kinvey.stored l) as [[id token]|] eqn:Hst.
      * destruct (Kinvey.restoreActiveUser _ _ _) as [r l2].
        eexists. eexists. split; [reflexivity|].
        intros [H|H]; [destruct (H eq_refl)|discriminate H].
      * unfold Kinvey.restoreActiveUser. cbn. eexists. eexists. split; [reflexivity|]. intros _.
        repeat split.
Qed.

(** X18.  When the synchronisation fails, the promise of [Kinvey.init] is
    rejected and the library is left not ready: [Kinvey.getActiveUser]
    throws although the promise has settled, also when the library was
    ready before the call.  The active user and the storage slot are as
    before. *)
Theorem init_failed_sync_not_ready (options : value) (l : Kinvey.Lib)
    (name : string) :
  let o := js_or options (VObj ∅) in
  Kinvey.nonnull (Kinvey.member o "appKey") = true ->
  Kinvey.nonnull (Kinvey.member o "appSecret") = true \/
  Kinvey.nonnull (Kinvey.member o "masterSecret") = true ->
  sync_init (Kinvey.member o "sync") = Some name ->
  exists l',
    Kinvey.init INVALID_CREDENTIALS me sync_init options l
    = (Kinvey.Returned (Kinvey.Rejected name), l') /\
    Kinvey.getActiveUser l' = Kinvey.Threw Kinvey.not_ready_message /\
    Kinvey.activeUser l' = Kinvey.activeUser l /\
    Kinvey.stored l' = Kinvey.stored l.
Proof.
  intros o Hk Hs Hsync. unfold Kinvey.init. fold o. rewrite Hk, Hsync.
  assert (Hc : negb (Kinvey.nonnull (Kinvey.member o "appSecret"))
               && negb (Kinvey.nonnull (Kinvey.member o "masterSecret"))
               = false).
  { destruct Hs as [-> | ->]; [reflexivity|apply andb_false_r]. }
  cbn [negb]. rewrite Hc. eexists. split; [reflexivity|]. repeat split.
Qed.

(** X19.  [restoreActiveUser] with an empty storage slot makes the library
    ready with no active user, and is fulfilled with the active user there
    was.  With a stored id and token whose [me] fails with the
    invalid-credentials error, the active user there was before is put
    back and the storage slot follows it, so a library that started
    without user ends with an empty slot; the rejection is handed on.
    With any other error the rejection is handed on and the library is as
    [me] left it. *)
Theorem restoreActiveUser_cases (l : Kinvey.Lib) :
  (Kinvey.stored l = None ->
   exists l',
     Kinvey.restoreActiveUser INVALID_CREDENTIALS me l
     = (Kinvey.Fulfilled (Kinvey.activeUser l), l') /\
     Kinvey.getActiveUser l' = Kinvey.Returned VNull /\
     Kinvey.stored l' = None) /\
  (forall id token l1 name l2,
     Kinvey.stored l = Some (id, token) ->
     Kinvey.nonnull id = true -> Kinvey.nonnull token = true ->
     Kinvey.consistent l ->
     l1 = snd (Kinvey.setActiveUser
                 (VObj (<["_kmd" := VObj (<["authtoken" := token]> ∅)]>
                       (<["_id" := id]> ∅))) l) ->
     me l1 = (inr name, l2) ->
     (name = INVALID_CREDENTIALS ->
      exists l3,
        Kinvey.restoreActiveUser INVALID_CREDENTIALS me l
        = (Kinvey.Rejected name, l3) /\
        Kinvey.getActiveUser l3 = Kinvey.Returned (Kinvey.activeUser l) /\
        Kinvey.stored l3 = Kinvey.stored_for (Kinvey.activeUser l)) /\
     (name <> INVALID_CREDENTIALS ->
      Kinvey.restoreActiveUser INVALID_CREDENTIALS me l
      = (Kinvey.Rejected name, l2))).
Proof.
  unfold Kinvey.restoreActiveUser. split.
  - intros ->. cbn. eexists. split; [reflexivity|]. split; reflexivity.
  - intros id token l1 name l2 -> Hid Htok Hl -> Hme.
    set (user := VObj _) in *.
    assert (Hvalid : Kinvey.has_credentials user = true).
    { unfold Kinvey.has_credentials, user. cbn [Kinvey.member].
      rewrite get_insert_eq. rewrite get_insert_ne by discriminate.
      rewrite get_insert_eq. cbn [Kinvey.member Kinvey.nonnull andb].
      rewrite get_insert_eq, Hid, Htok. reflexivity. }
    assert (Hset : Kinvey.setActiveUser user l
                   = (Kinvey.Returned (Kinvey.activeUser l),
                      snd (Kinvey.setActiveUser user l))).
    { unfold Kinvey.setActiveUser. rewrite Hvalid, andb_false_r.
      reflexivity. }
    rewrite Hset, Hme. split.
    + intros ->. rewrite String.eqb_refl.
      assert (Hprev : Kinvey.nonnull (Kinvey.activeUser l)
                      && negb (Kinvey.has_credentials (Kinvey.activeUser l))
                      = false).
      { destruct (Kinvey.nonnull (Kinvey.activeUser l)) eqn:Hn;
          [|reflexivity]. rewrite (Hl Hn). reflexivity. }
      unfold Kinvey.setActiveUser at 1. rewrite Hprev.
      eexists. split; [reflexivity|]. split; reflexivity.
    + intros Hne.
      destruct (String.eqb INVALID_CREDENTIALS name) eqn:He; [|reflexivity].
      apply String.eqb_eq in He. congruence.
Qed.

End LegacyInit.

Lemma init_checks_options_witness :
  Kinvey.init "InvalidCredentials" me_invalid sync_ok VUndefined legacy_fresh
  = (Kinvey.Threw Kinvey.appKey_message, legacy_fresh) /\
  exists r l',
    Kinvey.init "InvalidCredentials" me_invalid sync_ok (VObj legacy_options)
      legacy_fresh
    = (Kinvey.Returned r, l') /\
    Kinvey.appSecret l' = VNull /\ Kinvey.masterSecret l' = VStr "m".
Proof.
  split.
  - apply (init_checks_options "InvalidCredentials" me_invalid sync_ok
             VUndefined legacy_fresh).
    reflexivity.
  - destruct (proj2 (proj2 (init_checks_options "InvalidCredentials"
                              me_invalid sync_ok (VObj legacy_options)
                              legacy_fresh)))
      as (r & l' & H1 & H2).
    + reflexivity.
    + right. reflexivity.
    + exists r, l'. split; [exact H1|].
      destruct H2 as (_ & Hs & Hm); [right; reflexivity|].
      split; [exact Hs|exact Hm].
Defined.

Lemma init_failed_sync_not_ready_witness :
  exists l',
    Kinvey.init "InvalidCredentials" me_invalid sync_failed
      (VObj legacy_options) legacy_ready
    = (Kinvey.Returned (Kinvey.Rejected "SyncError"), l') /\
    Kinvey.getActiveUser l' = Kinvey.Threw Kinvey.not_ready_message.
Proof.
  destruct (init_failed_sync_not_ready "InvalidCredentials" me_invalid
              sync_failed (VObj legacy_options) legacy_ready "SyncError")
    as (l' & H1 & H2 & _).
  - reflexivity.
  - right. reflexivity.
  - reflexivity.
  - exists l'. split; [exact H1|exact H2].
Defined.

Lemma restoreActiveUser_cases_witness :
  exists l3,
    Kinvey.restoreActiveUser "InvalidCredentials" me_invalid legacy_stale
    = (Kinvey.Rejected "InvalidCredentials", l3) /\
    Kinvey.getActiveUser l3 = Kinvey.Returned VNull /\
    Kinvey.stored l3 = None.
Proof.
  destruct (proj2 (restoreActiveUser_cases "InvalidCredentials" me_invalid
                     legacy_stale)
              (VStr "u1") (VStr "T1") _ "InvalidCredentials" _
              eq_refl eq_refl eq_refl ltac:(discriminate) eq_refl eq_refl)
    as [H _].
  destruct (H eq_refl) as (l3 & H1 & H2 & H3).
  exists l3. split; [exact H1|]. split; [exact H2|exact H3].
Defined.


(** * The cache *)

Lemma save_empty (store : Cache.Adapter) (appKey collectionName : string)
    (draw : nat -> nat) (docs : Cache.input) :
  documents docs = [] ->
  Cache.save store appKey collectionName draw docs
  = Cache.mkSaved (inl (match docs with
                        | Cache.Falsy => None
                        | _ => Some docs
                        end)) None 0.
Proof.
  destruct docs as [|doc|[|doc l]]; cbn; intros H;
    try discriminate H; reflexivity.
Qed.

Lemma save_nonempty (store : Cache.Adapter) (appKey collectionName : string)
    (draw : nat -> nat) (docs : Cache.input) :
  documents docs <> [] ->
  Cache.save store appKey collectionName draw docs
  = let prepared := Cache.prepare_all draw 0 (documents docs) in
    match store appKey collectionName (fst prepared) with
    | Some message =>
        Cache.mkSaved (inr message) (Some (fst prepared)) (snd prepared)
    | None =>
        Cache.mkSaved (inl (Some docs)) (Some (fst prepared)) (snd prepared)
    end.
Proof.
  destruct docs as [|doc|[|doc l]]; cbn [documents]; intros H;
    try (destruct (H eq_refl)); unfold Cache.save.
  - destruct (Cache.prepare_all draw 0 [doc]) as [p n]. reflexivity.
  - destruct (Cache.prepare_all draw 0 (doc :: l)) as [p n]. reflexivity.
Qed.

(** X20.  [Cache#save] leaves the adapter alone exactly when it is given a
    falsy value or an empty array; it is then fulfilled, with [null] for
    the falsy value and with the array itself otherwise, whatever adapter
    is registered, and no id is generated. *)
Theorem save_skips_adapter (store : Cache.Adapter)
    (appKey collectionName : string) (draw : nat -> nat)
    (docs : Cache.input) :
  let s := Cache.save store appKey collectionName draw docs in
  (Cache.handed s = None <-> documents docs = []) /\
  (documents docs = [] ->
   Cache.drawn s = 0 /\
   Cache.result s = inl (match docs with
                         | Cache.Falsy => None
                         | _ => Some docs
                         end)).
Proof.
  intros s. subst s. split; [split|].
  - intros H. destruct (documents docs) as [|d l] eqn:Hd; [reflexivity|].
    rewrite save_nonempty in H by (rewrite Hd; discriminate).
    cbv zeta in H. destruct (store _ _ _); discriminate H.
  - intros H. rewrite (save_empty _ _ _ _ _ H). reflexivity.
  - intros H. rewrite (save_empty _ _ _ _ _ H). split; reflexivity.
Qed.

Lemma save_skips_adapter_witness :
  Cache.result (Cache.save Cache.default_store "k" "books" draw_cycle
                  (Cache.Many []))
  = inl (Some (Cache.Many [])).
Proof.
  apply (save_skips_adapter Cache.default_store "k" "books" draw_cycle
           (Cache.Many [])).
  reflexivity.
Defined.

(** X21.  As long as no adapter has been registered, and also after
    [register] was called with a falsy value, [Cache#save] is rejected
    with the message of the default adapter exactly when there is a
    document to save. *)
Theorem save_without_adapter (appKey collectionName : string)
    (draw : nat -> nat) (docs : Cache.input) :
  Cache.result (Cache.save (Cache.register None Cache.default_store)
                  appKey collectionName draw docs)
  = inr Cache.adapter_message
  <-> documents docs <> [].
Proof.
  cbn [Cache.register]. split.
  - intros H Hd. rewrite (save_empty _ _ _ _ _ Hd) in H. discriminate H.
  - intros H. rewrite (save_nonempty _ _ _ _ _ H). reflexivity.
Qed.

Lemma prepare_subseteq (draw : nat -> nat) (next : nat) (doc : obj) :
  doc ⊆ fst (Cache.prepare draw next doc).
Proof.
  unfold Cache.prepare. destruct (negb _); cbn [fst].
  - apply map_union_subseteq_l.
  - reflexivity.
Qed.

Lemma prepare_has_id (draw : nat -> nat) (next : nat) (doc : obj) :
  is_Some (fst (Cache.prepare draw next doc) !! "_id").
Proof.
  unfold Cache.prepare. destruct (negb _) eqn:Hid; cbn [fst].
  - rewrite lookup_union. destruct (doc !! "_id") as [v|].
    + rewrite lookup_insert_eq. eexists. reflexivity.
    + rewrite lookup_insert_eq. eexists. reflexivity.
  - unfold get in Hid. destruct (doc !! "_id") as [v|].
    + eexists. reflexivity.
    + discriminate Hid.
Qed.

Lemma prepare_with_id (draw : nat -> nat) (next : nat) (doc : obj) :
  lacks_id doc = false -> Cache.prepare draw next doc = (doc, next).
Proof.
  unfold lacks_id, Cache.prepare. intros ->. reflexivity.
Qed.

Lemma prepare_snd (draw : nat -> nat) (next : nat) (doc : obj) :
  snd (Cache.prepare draw next doc)
  = next + 24 * length (List.filter lacks_id [doc]).
Proof.
  unfold Cache.prepare. cbn [List.filter]. fold (lacks_id doc).
  destruct (lacks_id doc); cbn [snd length]; lia.
Qed.

Lemma prepare_all_cons (draw : nat -> nat) (next : nat) (doc : obj)
    (rest : list obj) :
  Cache.prepare_all draw next (doc :: rest)
  = (fst (Cache.prepare draw next doc)
       :: fst (Cache.prepare_all draw
                 (snd (Cache.prepare draw next doc)) rest),
     snd (Cache.prepare_all draw (snd (Cache.prepare draw next doc)) rest)).
Proof.
  cbn [Cache.prepare_all].
  destruct (Cache.prepare draw next doc) as [d n]. cbn [fst snd].
  destruct (Cache.prepare_all draw n rest) as [r m]. reflexivity.
Qed.

Lemma prepare_all_length (draw : nat -> nat) (docs : list obj) (next : nat) :
  length (fst (Cache.prepare_all draw next docs)) = length docs.
Proof.
  revert next. induction docs as [|doc rest IH]; intros next.
  - reflexivity.
  - rewrite prepare_all_cons. cbn [fst length]. rewrite IH. reflexivity.
Qed.

Lemma prepare_all_drawn (draw : nat -> nat) (docs : list obj) (next : nat) :
  snd (Cache.prepare_all draw next docs)
  = next + 24 * length (List.filter lacks_id docs).
Proof.
  revert next. induction docs as [|doc rest IH]; intros next.
  - cbn. lia.
  - rewrite prepare_all_cons. cbn [snd]. rewrite IH, prepare_snd.
    cbn [List.filter]. destruct (lacks_id doc); cbn [length]; lia.
Qed.

Lemma prepare_all_lookup (draw : nat -> nat) (docs : list obj) (next i : nat)
    (doc : obj) :
  docs !! i = Some doc ->
  exists n,
    fst (Cache.prepare_all draw next docs) !! i
    = Some (fst (Cache.prepare draw n doc)).
Proof.
  revert next i. induction docs as [|d rest IH]; intros next i H.
  - discriminate H.
  - rewrite prepare_all_cons. cbn [fst]. destruct i as [|i].
    + injection H as ->. exists next. reflexivity.
    + apply (IH _ i H).
Qed.

(** X22.  When there is a document to save, the adapter is handed a new
    array of the same length and order.  Each document handed over has all
    the properties of the one given, with their values, and an own [_id];
    a document with a truthy [_id] is handed over as it is.  Twenty-four
    random positions are drawn for every document without a truthy [_id],
    and for no other.  If the adapter accepts, [save] is fulfilled with its
    argument, not with the array handed over. *)
Theorem save_hands_prepared_documents (store : Cache.Adapter)
    (appKey collectionName : string) (draw : nat -> nat)
    (docs : Cache.input) :
  documents docs <> [] ->
  let s := Cache.save store appKey collectionName draw docs in
  exists prepared,
    Cache.handed s = Some prepared /\
    length prepared = length (documents docs) /\
    (forall i doc, documents docs !! i = Some doc ->
       exists doc',
         prepared !! i = Some doc' /\ doc ⊆ doc' /\
         is_Some (doc' !! "_id") /\
         (lacks_id doc = false -> doc' = doc)) /\
    Cache.drawn s = 24 * length (List.filter lacks_id (documents docs)) /\
    (store appKey collectionName prepared = None ->
     Cache.result s = inl (Some docs)).
Proof.
  intros Hd s. subst s. rewrite (save_nonempty _ _ _ _ _ Hd). cbv zeta.
  exists (fst (Cache.prepare_all draw 0 (documents docs))).
  split; [destruct (store _ _ _); reflexivity|].
  split; [apply prepare_all_length|].
  split.
  { intros i doc Hi.
    destruct (prepare_all_lookup draw _ 0 i doc Hi) as [n Hn].
    exists (fst (Cache.prepare draw n doc)). split; [exact Hn|].
    split; [apply prepare_subseteq|]. split; [apply prepare_has_id|].
    intros Hid. rewrite (prepare_with_id _ _ _ Hid). reflexivity. }
  split.
  - pose proof (prepare_all_drawn draw (documents docs) 0) as Hn.
    cbn [Nat.add] in Hn. rewrite <- Hn.
    destruct (store _ _ _); reflexivity.
  - intros ->. reflexivity.
Qed.

Lemma save_hands_prepared_documents_witness :
  exists prepared,
    Cache.handed (Cache.save accept_all "k" "books" draw_cycle
                    (Cache.Many [doc_without_id; record_u1; doc_null_id]))
    = Some prepared /\
    length prepared = 3 /\
    Cache.drawn (Cache.save accept_all "k" "books" draw_cycle
                   (Cache.Many [doc_without_id; record_u1; doc_null_id]))
    = 48.
Proof.
  destruct (save_hands_prepared_documents accept_all "k" "books" draw_cycle
              (Cache.Many [doc_without_id; record_u1; doc_null_id]))
    as (prepared & H1 & H2 & _ & H4 & _).
  - discriminate.
  - exists prepared. split; [exact H1|]. split; [exact H2|exact H4].
Defined.

Lemma get_absent (o : obj) (k : string) : o !! k = None -> get o k = VUndefined.
Proof.
  unfold get. intros ->. reflexivity.
Qed.

(** X23.  A document without a truthy [_id] is handed over with the
    generated id only if it has no own [_id] property: an own falsy [_id]
    stays.  Its [_kmd] is its own one, untouched and not marked local, if it
    has the property, and exactly [{local: true}] otherwise.  Every other
    property is the document's. *)
Theorem prepare_new_document (draw : nat -> nat) (next : nat) (doc : obj) :
  lacks_id doc = true ->
  let doc' := fst (Cache.prepare draw next doc) in
  doc' !! "_id" = match doc !! "_id" with
                  | Some v => Some v
                  | None => Some (VStr (Cache.generateId draw next 24))
                  end /\
  doc' !! "_kmd" = match doc !! "_kmd" with
                   | Some k => Some k
                   | None => Some (VObj local_kmd)
                   end /\
  (forall k, k <> "_id" -> k <> "_kmd" -> doc' !! k = doc !! k).
Proof.
  intros Hid doc'. subst doc'. unfold lacks_id in Hid.
  unfold Cache.prepare. rewrite Hid. cbn [fst].
  split; [|split].
  - rewrite lookup_union. destruct (doc !! "_id") as [v|].
    + rewrite lookup_insert_eq. reflexivity.
    + rewrite lookup_insert_eq. reflexivity.
  - rewrite lookup_union.
    rewrite lookup_insert_ne by discriminate. rewrite lookup_insert_eq.
    destruct (doc !! "_kmd") as [k|] eqn:Hk.
    + reflexivity.
    + rewrite (get_absent _ _ Hk). reflexivity.
  - intros k H1 H2. rewrite lookup_union.
    rewrite lookup_insert_ne by congruence.
    rewrite lookup_insert_ne by congruence.
    rewrite lookup_empty. destruct (doc !! k); reflexivity.
Qed.

Lemma prepare_new_document_witness :
  fst (Cache.prepare draw_cycle 0 doc_null_id) !! "_id" = Some VNull /\
  fst (Cache.prepare draw_cycle 0 doc_null_id) !! "_kmd"
  = Some (VObj local_kmd).
Proof.
  destruct (prepare_new_document draw_cycle 0 doc_null_id)
    as (H1 & H2 & _).
  - reflexivity.
  - split; [exact H1|exact H2].
Defined.

Lemma substring_one_chars (p : nat) :
  p < 16 ->
  exists c, String.substring p 1 Cache.chars = String c EmptyString /\
            In c (list_ascii_of_string Cache.chars).
Proof.
  intros H.
  do 16 (destruct p as [|p];
         [eexists; split; [reflexivity|cbn; tauto]|]).
  lia.
Qed.

(** X24.  As long as every drawn position is below sixteen, [generateId]
    yields a string of exactly the asked length, made of the characters
    [a]-[f] and [0]-[9] only. *)
Theorem generateId_length_and_alphabet (draw : nat -> nat)
    (next length : nat) :
  (forall i, draw i < 16) ->
  String.length (Cache.generateId draw next length) = length /\
  Forall (fun c => In c (list_ascii_of_string Cache.chars))
         (list_ascii_of_string (Cache.generateId draw next length)).
Proof.
  intros Hdraw. revert next.
  induction length as [|n IH]; intros next; cbn [Cache.generateId].
  - split; [reflexivity|constructor].
  - destruct (substring_one_chars (draw next) (Hdraw next)) as (c & -> & Hc).
    destruct (IH (S next)) as [IH1 IH2].
    change (String c "" +:+ Cache.generateId draw (S next) n)
      with (String c (Cache.generateId draw (S next) n)).
    cbn [String.length list_ascii_of_string].
    split; [rewrite IH1; reflexivity|]. constructor; assumption.
Qed.

Lemma generateId_length_and_alphabet_witness :
  String.length (Cache.generateId draw_cycle 0 24) = 24.
Proof.
  apply (generateId_length_and_alphabet draw_cycle 0 24).
  intros i. unfold draw_cycle. apply Nat.mod_upper_bound. discriminate.
Defined.

Lemma save_without_adapter_witness :
  Cache.result (Cache.save (Cache.register None Cache.default_store)
                  "k" "books" draw_cycle (Cache.One doc_without_id))
  = inr Cache.adapter_message.
Proof.
  apply (save_without_adapter "k" "books" draw_cycle
           (Cache.One doc_without_id)).
  discriminate.
Defined.
